(** * Laundry backend: OTP login, admin guard, order cancellation and bulk sync

    A shallow embedding of the request handlers of the laundry-service
    backend (Express + Mongoose) and the properties its specification
    states about them.

    Conventions of the embedding.
    - A handler [async (req, res) => ...] becomes a function from the
      request fields it reads, the environment variables it reads, the
      clock reading and random draw it takes, and the collections it
      touches, to the response it sends and the collections afterwards.
    - A Mongoose collection is the list of its documents in insertion
      order.  [findOne] returns the first document matching the filter,
      [save] rewrites the document carrying the same [_id], [create]
      appends.
    - A field a schema leaves optional is an [option]; [None] is the
      JavaScript [undefined]/[null] of a field that is not stored.
    - Request fields that the handlers treat as strings are [option string],
      [None] for a field missing from the JSON body.
    - [Date] values are milliseconds since the epoch, in [Z]. *)

From Stdlib Require Import String Ascii List ZArith NArith QArith Qround.
From Stdlib Require Import Lia Bool DecimalString.
Import ListNotations.

#[local] Open Scope string_scope.
#[local] Open Scope list_scope.
#[local] Open Scope Z_scope.

(** ** JavaScript primitives used by the handlers *)

Module Js.

(** Truthiness of a value that is either [undefined] or a string: the
    empty string is falsy. *)
Definition truthy (v : option string) : bool :=
  match v with
  | Some s => negb (s =? "")%string
  | None => false
  end.

(** [a || b] on such values. *)
Definition or_else (a : option string) (b : string) : string :=
  match a with
  | Some s => if (s =? "")%string then b else s
  | None => b
  end.

(** [n.toString()] for an integer-valued number. *)
Definition toString (z : Z) : string := NilZero.string_of_int (Z.to_int z).

Definition is_digit (c : ascii) : bool :=
  let n := nat_of_ascii c in (48 <=? n)%nat && (n <=? 57)%nat.

Fixpoint all_digits (s : string) : bool :=
  match s with
  | EmptyString => true
  | String c s' => is_digit c && all_digits s'
  end.

(** [/^[0-9]{10}$/.test(s)] *)
Definition phoneRegex_test (s : string) : bool :=
  (String.length s =? 10)%nat && all_digits s.

(** [s.split(sep)] for a one-character separator. *)
Fixpoint split (sep : ascii) (s : string) : list string :=
  match s with
  | EmptyString => [EmptyString]
  | String c s' =>
      if Ascii.eqb c sep then EmptyString :: split sep s'
      else match split sep s' with
           | h :: t => String c h :: t
           | [] => [String c EmptyString]
           end
  end.

(** [undefined < d] is false, as is any comparison with [NaN]. *)
Definition date_lt (a : option Z) (b : Z) : bool :=
  match a with
  | Some t => t <? b
  | None => false
  end.

(** [a !== b] where [a] may be [undefined] and [b] is a string. *)
Definition strict_neq (a : option string) (b : string) : bool :=
  match a with
  | Some s => negb (s =? b)%string
  | None => true
  end.

End Js.

(** ** Responses *)

(** [res.status(code).json({ success, message, ...payload })] *)
Record Response (A : Type) : Type := mkResponse {
  status : Z;
  success : bool;
  message : string;
  payload : A
}.
Arguments mkResponse {A} _ _ _ _.
Arguments status {A} _.
Arguments success {A} _.
Arguments message {A} _.
Arguments payload {A} _.

(** ** Documents *)

Definition ObjectId : Type := N.

(** [process.env] as far as the handlers read it. *)
Record Env : Type := mkEnv {
  NODE_ENV : option string;
  STATIC_OTP : option string;
  JWT_SECRET : option string;
  JWT_EXPIRE : option string
}.

(** The User schema.  The legacy embedded [contacts] and [smsLogs] arrays and
    the [createdAt]/[updatedAt] stamps are not read or written by the
    handlers below and are left out. *)
Record User : Type := mkUser {
  u_id : ObjectId;
  u_phoneNumber : string;
  u_name : option string;
  u_email : option string;
  u_address : option string;
  u_otp : option string;
  u_otpExpiry : option Z;
  u_isVerified : bool;
  u_smsPermission : bool;
  u_contactPermission : bool;
  u_isProfileComplete : bool;
  u_fcmToken : option string
}.

Module Users.

(** [User.findOne({ phoneNumber })] *)
Fixpoint findOne (phoneNumber : string) (users : list User) : option User :=
  match users with
  | [] => None
  | u :: rest =>
      if (u_phoneNumber u =? phoneNumber)%string then Some u
      else findOne phoneNumber rest
  end.

(** [User.findById(id)] *)
Fixpoint findById (id : ObjectId) (users : list User) : option User :=
  match users with
  | [] => None
  | u :: rest =>
      if (u_id u =? id)%N then Some u else findById id rest
  end.

(** [user.save()] for a document loaded from the collection: the stored
    document with the same [_id] is rewritten. *)
Fixpoint save (user : User) (users : list User) : list User :=
  match users with
  | [] => []
  | u :: rest =>
      if (u_id u =? u_id user)%N then user :: rest
      else u :: save user rest
  end.

(** [User.create({ phoneNumber, otp, otpExpiry })]: every other field takes
    its schema default.  [_id] is the identifier the driver assigns. *)
Definition create (_id : ObjectId) (phoneNumber otp : string) (otpExpiry : Z)
    (users : list User) : User * list User :=
  let user := {| u_id := _id; u_phoneNumber := phoneNumber;
                 u_name := None; u_email := None; u_address := None;
                 u_otp := Some otp; u_otpExpiry := Some otpExpiry;
                 u_isVerified := false; u_smsPermission := false;
                 u_contactPermission := false; u_isProfileComplete := false;
                 u_fcmToken := None |} in
  (user, users ++ [user]).

Definition set_otp (otp : option string) (otpExpiry : option Z) (u : User) : User :=
  {| u_id := u_id u; u_phoneNumber := u_phoneNumber u;
     u_name := u_name u; u_email := u_email u; u_address := u_address u;
     u_otp := otp; u_otpExpiry := otpExpiry;
     u_isVerified := u_isVerified u; u_smsPermission := u_smsPermission u;
     u_contactPermission := u_contactPermission u;
     u_isProfileComplete := u_isProfileComplete u;
     u_fcmToken := u_fcmToken u |}.

Definition set_isVerified (b : bool) (u : User) : User :=
  {| u_id := u_id u; u_phoneNumber := u_phoneNumber u;
     u_name := u_name u; u_email := u_email u; u_address := u_address u;
     u_otp := u_otp u; u_otpExpiry := u_otpExpiry u;
     u_isVerified := b; u_smsPermission := u_smsPermission u;
     u_contactPermission := u_contactPermission u;
     u_isProfileComplete := u_isProfileComplete u;
     u_fcmToken := u_fcmToken u |}.

Definition set_contactPermission (b : bool) (u : User) : User :=
  {| u_id := u_id u; u_phoneNumber := u_phoneNumber u;
     u_name := u_name u; u_email := u_email u; u_address := u_address u;
     u_otp := u_otp u; u_otpExpiry := u_otpExpiry u;
     u_isVerified := u_isVerified u; u_smsPermission := u_smsPermission u;
     u_contactPermission := b;
     u_isProfileComplete := u_isProfileComplete u;
     u_fcmToken := u_fcmToken u |}.

(** [User.findByIdAndUpdate(id, { contactPermission })] *)
Fixpoint findByIdAndUpdate_contactPermission (id : ObjectId) (b : bool)
    (users : list User) : list User :=
  match users with
  | [] => []
  | u :: rest =>
      if (u_id u =? id)%N then set_contactPermission b u :: rest
      else u :: findByIdAndUpdate_contactPermission id b rest
  end.

End Users.

(** ** The OTP controller: [sendOtp], [verifyOtp], [resendOtp] *)

Module Auth.

(** What [verifyOtp] returns of the user. *)
Record UserView : Type := mkUserView {
  v_id : ObjectId;
  v_phoneNumber : string;
  v_name : option string;
  v_email : option string;
  v_address : option string;
  v_smsPermission : bool;
  v_contactPermission : bool;
  v_isProfileComplete : bool
}.

Definition view (user : User) : UserView :=
  {| v_id := u_id user; v_phoneNumber := u_phoneNumber user;
     v_name := u_name user; v_email := u_email user;
     v_address := u_address user;
     v_smsPermission := u_smsPermission user;
     v_contactPermission := u_contactPermission user;
     v_isProfileComplete := u_isProfileComplete user || false |}.

(** The validity window of a code: [10 * 60 * 1000] ms. *)
Definition otpWindow : Z := 10 * 60 * 1000.

(** [Math.floor(100000 + Math.random() * 900000).toString()], the draw of
    [Math.random()] being [r], a number in [0, 1). *)
Definition generateOTP (r : Q) : string :=
  Js.toString (Qfloor (100000 + r * 900000)).

(** The failure responses of the three handlers, under the names the
    specification gives them: 400 for a missing or malformed field, 404
    "User not found", 400 "OTP has expired", 400 "Invalid OTP", and 500 with
    the message of whatever was thrown. *)
Definition ValidationError {A} (msg : string) (none : A) : Response A :=
  mkResponse 400 false msg none.
Definition NotFoundError {A} (none : A) : Response A :=
  mkResponse 404 false "User not found" none.
Definition ExpiredError {A} (none : A) : Response A :=
  mkResponse 400 false "OTP has expired" none.
Definition MismatchError {A} (none : A) : Response A :=
  mkResponse 400 false "Invalid OTP" none.
Definition InternalError {A} (msg : string) (none : A) : Response A :=
  mkResponse 500 false msg none.

(** [sendOtp]: the payload is the [otp] field of the body, present or not. *)
Definition sendOtp (env : Env) (now : Z) (r : Q) (fresh : ObjectId)
    (phoneNumber : option string) (users : list User)
    : Response (option string) * list User :=
  match phoneNumber with
  | None => (ValidationError "Phone number is required" None, users)
  | Some phone =>
      if negb (Js.truthy phoneNumber) then
        (ValidationError "Phone number is required" None, users)
      else if negb (Js.phoneRegex_test phone) then
        (ValidationError "Please provide a valid 10 digit phone number" None, users)
      else
        let otp := Js.or_else (STATIC_OTP env) (generateOTP r) in
        let otpExpiry := now + otpWindow in
        let users' :=
          match Users.findOne phone users with
          | None => snd (Users.create fresh phone otp otpExpiry users)
          | Some user =>
              Users.save (Users.set_otp (Some otp) (Some otpExpiry) user) users
          end in
        (mkResponse 200 true "OTP sent successfully"
           (if (match NODE_ENV env with
                | Some m => (m =? "development")%string
                | None => false
                end) || Js.truthy (STATIC_OTP env)
            then Some otp else None),
         users')
  end.

Section WithTokenService.

(** [jwt.sign({ id }, secret, { expiresIn })]: the token, or the message
    of the error it throws. *)
Variable jwt_sign : ObjectId -> option string -> string -> string + string.

Definition generateToken (id : ObjectId) (env : Env) : string + string :=
  jwt_sign id (JWT_SECRET env) (Js.or_else (JWT_EXPIRE env) "7d").

(** [verifyOtp]: the payload is the token and the user projection. *)
Definition verifyOtp (env : Env) (now : Z)
    (phoneNumber otp : option string) (users : list User)
    : Response (option (string * UserView)) * list User :=
  match phoneNumber, otp with
  | Some phone, Some code =>
      if negb (Js.truthy phoneNumber) || negb (Js.truthy otp) then
        (ValidationError "Phone number and OTP are required" None, users)
      else
        match Users.findOne phone users with
        | None => (NotFoundError None, users)
        | Some user =>
            if Js.date_lt (u_otpExpiry user) now then
              (ExpiredError None, users)
            else if Js.strict_neq (u_otp user) code then
              (MismatchError None, users)
            else
              let user' :=
                Users.set_otp None None (Users.set_isVerified true user) in
              let users' := Users.save user' users in
              match generateToken (u_id user') env with
              | inl token =>
                  (mkResponse 200 true "OTP verified successfully"
                     (Some (token, view user')), users')
              | inr msg => (InternalError msg None, users')
              end
        end
  | _, _ => (ValidationError "Phone number and OTP are required" None, users)
  end.

End WithTokenService.

(** [resendOtp] *)
Definition resendOtp (env : Env) (now : Z) (r : Q)
    (phoneNumber : option string) (users : list User)
    : Response (option string) * list User :=
  match phoneNumber with
  | None => (ValidationError "Phone number is required" None, users)
  | Some phone =>
      if negb (Js.truthy phoneNumber) then
        (ValidationError "Phone number is required" None, users)
      else
        match Users.findOne phone users with
        | None => (NotFoundError None, users)
        | Some user =>
            let otp := generateOTP r in
            let otpExpiry := now + otpWindow in
            let users' :=
              Users.save (Users.set_otp (Some otp) (Some otpExpiry) user) users in
            (mkResponse 200 true "OTP resent successfully"
               (if match NODE_ENV env with
                   | Some m => (m =? "development")%string
                   | None => false
                   end
                then Some otp else None),
             users')
        end
  end.




(** [process.env.NODE_ENV === 'production'] *)
Definition production (env : Env) : Prop := NODE_ENV env = Some "production".

End Auth.

(** ** Admin login and the admin guard *)

(** The Admin schema. *)
Inductive AdminRole : Type := RoleAdmin | RoleSuperAdmin.

Record Admin : Type := mkAdmin {
  a_id : ObjectId;
  a_email : string;
  a_password : string;
  a_name : string;
  a_role : AdminRole;
  a_isActive : bool
}.

Module Admins.

(** [Admin.findOne({ email })] *)
Fixpoint findOne (email : string) (admins : list Admin) : option Admin :=
  match admins with
  | [] => None
  | a :: rest =>
      if (a_email a =? email)%string then Some a else findOne email rest
  end.

(** [Admin.findById(id)] *)
Fixpoint findById (id : ObjectId) (admins : list Admin) : option Admin :=
  match admins with
  | [] => None
  | a :: rest => if (a_id a =? id)%N then Some a else findById id rest
  end.

End Admins.

Module AdminAuth.

(** What [adminLogin] returns of the admin. *)
Record AdminView : Type := mkAdminView {
  av_id : ObjectId;
  av_email : string;
  av_name : string;
  av_role : AdminRole
}.

(** What a guard does with a request: hand it on with the principal it
    resolved, or answer it. *)
Inductive Guard (P : Type) : Type :=
| Next (principal : P)
| Reject (res : Response unit).
Arguments Next {P} _.
Arguments Reject {P} _.

(** The token of an [Authorization] header:
    [h && h.startsWith('Bearer')] guards [h.split(' ')[1]]. *)
Definition bearer_token (authorization : option string) : option string :=
  match authorization with
  | Some h =>
      if Js.truthy authorization && String.prefix "Bearer" h
      then nth_error (Js.split " "%char h) 1
      else None
  | None => None
  end.

Section WithCollaborators.

(** [bcrypt.compare(password, hash)] *)
Variable bcrypt_compare : string -> string -> bool.
(** [jwt.sign({ id }, secret, { expiresIn })], as in [Auth]. *)
Variable jwt_sign : ObjectId -> option string -> string -> string + string.
(** [jwt.verify(token, secret).id]; [None] when verification throws
    (bad signature, expired, malformed). *)
Variable jwt_verify : string -> option string -> option ObjectId.

(** [adminLogin] *)
Definition adminLogin (env : Env) (email password : option string)
    (admins : list Admin) : Response (option (string * AdminView)) :=
  match email, password with
  | Some em, Some pw =>
      if negb (Js.truthy email) || negb (Js.truthy password) then
        mkResponse 400 false "Please provide email and password" None
      else
        match Admins.findOne em admins with
        | None => mkResponse 401 false "Invalid credentials" None
        | Some admin =>
            if negb (bcrypt_compare pw (a_password admin)) then
              mkResponse 401 false "Invalid credentials" None
            else if negb (a_isActive admin) then
              mkResponse 401 false "Account is deactivated" None
            else
              match Auth.generateToken jwt_sign (a_id admin) env with
              | inl token =>
                  mkResponse 200 true "Login successful"
                    (Some (token,
                           {| av_id := a_id admin; av_email := a_email admin;
                              av_name := a_name admin;
                              av_role := a_role admin |}))
              | inr msg => mkResponse 500 false msg None
              end
        end
  | _, _ => mkResponse 400 false "Please provide email and password" None
  end.

(** [adminProtect] *)
Definition adminProtect (env : Env) (authorization : option string)
    (admins : list Admin) : Guard Admin :=
  let token := bearer_token authorization in
  if negb (Js.truthy token) then
    Reject (mkResponse 401 false "Not authorized - Admin access required" tt)
  else
    match token with
    | None =>
        Reject (mkResponse 401 false "Not authorized - Admin access required" tt)
    | Some tok =>
        match jwt_verify tok (JWT_SECRET env) with
        | None =>
            Reject (mkResponse 401 false "Not authorized - Invalid token" tt)
        | Some id =>
            match Admins.findById id admins with
            | None =>
                Reject (mkResponse 403 false
                          "Access denied - Admin privileges required" tt)
            | Some admin => Next admin
            end
        end
    end.

(** [protect], the guard of the user routes. *)
Definition protect (env : Env) (authorization : option string)
    (users : list User) : Guard User :=
  let token := bearer_token authorization in
  if negb (Js.truthy token) then
    Reject (mkResponse 401 false "Not authorized to access this route" tt)
  else
    match token with
    | None =>
        Reject (mkResponse 401 false "Not authorized to access this route" tt)
    | Some tok =>
        match jwt_verify tok (JWT_SECRET env) with
        | None =>
            Reject (mkResponse 401 false "Not authorized to access this route" tt)
        | Some id =>
            match Users.findById id users with
            | None => Reject (mkResponse 401 false "User not found" tt)
            | Some user => Next user
            end
        end
    end.

End WithCollaborators.

End AdminAuth.

(** ** Orders: the cancel route *)

Inductive OrderStatus : Type :=
| pending | picked | in_process | delivered | cancelled.

(** The Order schema. *)
Record Order : Type := mkOrder {
  o_id : ObjectId;
  o_userId : ObjectId;
  o_serviceId : string;
  o_serviceName : string;
  o_pickupDate : Z;
  o_pickupTime : string;
  o_status : OrderStatus;
  o_amount : Q;
  o_address : option string;
  o_notes : option string;
  o_customerName : option string;
  o_customerPhone : option string
}.

Module Orders.



(** [Order.findById(id)] *)
Fixpoint findById (id : ObjectId) (orders : list Order) : option Order :=
  match orders with
  | [] => None
  | o :: rest => if (o_id o =? id)%N then Some o else findById id rest
  end.

(** [order.save()] *)
Fixpoint save (order : Order) (orders : list Order) : list Order :=
  match orders with
  | [] => []
  | o :: rest =>
      if (o_id o =? o_id order)%N then order :: rest
      else o :: save order rest
  end.





End Orders.

(** ** Contacts: bulk sync by upsert *)

(** The Contact schema; the compound index on [(userId, phoneNumber)] is
    declared unique.  [_id] and the [createdAt]/[updatedAt] stamps play no
    part in the handlers and are left out. *)
Record Contact : Type := mkContact {
  c_userId : ObjectId;
  c_name : string;
  c_phoneNumber : string;
  c_email : option string;
  c_syncedAt : Z
}.

(** One element of [req.body.contacts]. *)
Record ContactInput : Type := mkContactInput {
  in_name : string;
  in_phoneNumber : string;
  in_email : option string
}.

Module Contacts.

(** [{ updateOne: { filter: { userId, phoneNumber },
                    update: { $set: { name, email, syncedAt } },
                    upsert: true } }] *)
Record UpdateOne : Type := mkUpdateOne {
  filter_userId : ObjectId;
  filter_phoneNumber : string;
  set_name : string;
  set_email : option string;
  set_syncedAt : Z
}.

Definition matches (op : UpdateOne) (d : Contact) : bool :=
  (c_userId d =? filter_userId op)%N
  && (c_phoneNumber d =? filter_phoneNumber op)%string.

(** The [$set] of an operation applied to a matched document. *)
Definition apply_set (op : UpdateOne) (d : Contact) : Contact :=
  {| c_userId := c_userId d; c_name := set_name op;
     c_phoneNumber := c_phoneNumber d; c_email := set_email op;
     c_syncedAt := set_syncedAt op |}.

(** The document an upsert inserts: the filter's fields and the [$set]. *)
Definition upserted (op : UpdateOne) : Contact :=
  {| c_userId := filter_userId op; c_name := set_name op;
     c_phoneNumber := filter_phoneNumber op; c_email := set_email op;
     c_syncedAt := set_syncedAt op |}.

(** The collection after one operation: the first match is updated in
    place; without a match the upsert appends. *)
Fixpoint updateOne (op : UpdateOne) (docs : list Contact) : list Contact :=
  match docs with
  | [] => [upserted op]
  | d :: rest =>
      if matches op d then apply_set op d :: rest
      else d :: updateOne op rest
  end.

Definition option_string_eqb (a b : option string) : bool :=
  match a, b with
  | Some x, Some y => (x =? y)%string
  | None, None => true
  | _, _ => false
  end.

Definition contact_eqb (a b : Contact) : bool :=
  (c_userId a =? c_userId b)%N && (c_name a =? c_name b)%string
  && (c_phoneNumber a =? c_phoneNumber b)%string
  && option_string_eqb (c_email a) (c_email b)
  && (c_syncedAt a =? c_syncedAt b).

(** What the driver reports of one operation. *)
Inductive Outcome : Type := Upserted | Modified | Unmodified.

Fixpoint updateOne_outcome (op : UpdateOne) (docs : list Contact) : Outcome :=
  match docs with
  | [] => Upserted
  | d :: rest =>
      if matches op d
      then if contact_eqb (apply_set op d) d then Unmodified else Modified
      else updateOne_outcome op rest
  end.

Record BulkWriteResult : Type := mkBulkWriteResult {
  upsertedCount : nat;
  modifiedCount : nat;
  matchedCount : nat
}.

Definition tally (o : Outcome) (r : BulkWriteResult) : BulkWriteResult :=
  match o with
  | Upserted => mkBulkWriteResult (S (upsertedCount r)) (modifiedCount r) (matchedCount r)
  | Modified => mkBulkWriteResult (upsertedCount r) (S (modifiedCount r)) (S (matchedCount r))
  | Unmodified => mkBulkWriteResult (upsertedCount r) (modifiedCount r) (S (matchedCount r))
  end.

(** [Contact.bulkWrite(ops)]: ordered, one operation after the other. *)
Fixpoint bulkWrite_from (r : BulkWriteResult) (ops : list UpdateOne)
    (docs : list Contact) : BulkWriteResult * list Contact :=
  match ops with
  | [] => (r, docs)
  | op :: ops' =>
      bulkWrite_from (tally (updateOne_outcome op docs) r) ops' (updateOne op docs)
  end.

Definition bulkWrite (ops : list UpdateOne) (docs : list Contact)
    : BulkWriteResult * list Contact :=
  bulkWrite_from (mkBulkWriteResult 0 0 0) ops docs.

(** [Contact.countDocuments({ userId })] *)
Definition countDocuments (userId : ObjectId) (docs : list Contact) : nat :=
  List.length (filter (fun d => (c_userId d =? userId)%N) docs).

(** [Contact.deleteMany({ userId })] *)
Definition deleteMany (userId : ObjectId) (docs : list Contact) : list Contact :=
  filter (fun d => negb (c_userId d =? userId)%N) docs.

(** [email || null] *)
Definition email_or_null (email : option string) : option string :=
  if Js.truthy email then email else None.

(** The [data] of a successful sync. *)
Record SyncData : Type := mkSyncData {
  inserted : nat;
  updated : nat;
  total : nat;
  totalInDb : nat
}.

(** The operation [contacts.map] builds of one contact; [now] is the
    reading of [new Date()]. *)
Definition bulkOp (userId : ObjectId) (now : Z) (contact : ContactInput) : UpdateOne :=
  {| filter_userId := userId;
     filter_phoneNumber := in_phoneNumber contact;
     set_name := in_name contact;
     set_email := email_or_null (in_email contact);
     set_syncedAt := now |}.

(** [if (userPhoneNumber && user) contacts.push({...})] *)
Definition with_own_number (user : User) (userPhoneNumber : option string)
    (contacts : list ContactInput) : list ContactInput :=
  if Js.truthy userPhoneNumber then
    contacts ++
    [ {| in_name := Js.or_else (u_name user) "Me (Own Number)";
         in_phoneNumber := Js.or_else userPhoneNumber "";
         in_email := email_or_null (u_email user) |} ]
  else contacts.

(** [syncContacts]: [userId] is [req.user.id]; [contacts] is [None] when
    the body carries no array under that name. *)
Definition syncContacts (userId : ObjectId)
    (contacts : option (list ContactInput)) (userPhoneNumber : option string)
    (now : Z) (users : list User) (docs : list Contact)
    : Response (option SyncData) * list User * list Contact :=
  match contacts with
  | None => (mkResponse 400 false "Invalid contacts data" None, users, docs)
  | Some contacts =>
      if (List.length contacts =? 0)%nat then
        (mkResponse 200 false "No contacts to sync" None, users, docs)
      else
        match Users.findById userId users with
        | None => (mkResponse 404 false "User not found" None, users, docs)
        | Some user =>
            let contacts := with_own_number user userPhoneNumber contacts in
            let users' :=
              Users.findByIdAndUpdate_contactPermission userId true users in
            let bulkOps := map (bulkOp userId now) contacts in
            let '(result, docs') := bulkWrite bulkOps docs in
            (mkResponse 200 true "Contacts synced successfully"
               (Some {| inserted := upsertedCount result;
                        updated := modifiedCount result;
                        total := List.length contacts;
                        totalInDb := countDocuments userId docs' |}),
             users', docs')
        end
  end.

(** [deleteMyContacts]: the payload is [deletedCount]. *)
Definition deleteMyContacts (userId : ObjectId)
    (users : list User) (docs : list Contact)
    : Response nat * list User * list Contact :=
  let docs' := deleteMany userId docs in
  (mkResponse 200 true "All contacts deleted successfully"
     (List.length docs - List.length docs')%nat,
   Users.findByIdAndUpdate_contactPermission userId false users,
   docs').

(** The contact collections the running service can hold: empty at first,
    then whatever the two writers of the collection make of it. *)
Inductive reachable : list Contact -> Prop :=
| reach_empty : reachable []
| reach_sync : forall userId contacts userPhoneNumber now users docs,
    reachable docs ->
    reachable (snd (syncContacts userId contacts userPhoneNumber now users docs))
| reach_delete : forall userId users docs,
    reachable docs ->
    reachable (snd (deleteMyContacts userId users docs)).

(** The pair the unique index is declared on. *)
Definition index_key (d : Contact) : ObjectId * string :=
  (c_userId d, c_phoneNumber d).

(** A document without its sync stamp. *)
Definition unstamped (d : Contact) : Contact :=
  {| c_userId := c_userId d; c_name := c_name d;
     c_phoneNumber := c_phoneNumber d; c_email := c_email d;
     c_syncedAt := 0 |}.

(** The pair an operation filters on. *)
Definition filter_key (op : UpdateOne) : ObjectId * string :=
  (filter_userId op, filter_phoneNumber op).

Definition key_eq_dec (a b : ObjectId * string) : {a = b} + {a <> b}.
Proof.
  decide equality; [apply string_dec|apply N.eq_dec].
Defined.

(** The collection after a list of operations. *)
Definition updateMany (ops : list UpdateOne) (docs : list Contact) : list Contact :=
  fold_left (fun ds op => updateOne op ds) ops docs.

(** An operation without its sync stamp. *)
Definition unstamped_op (op : UpdateOne) : UpdateOne :=
  {| filter_userId := filter_userId op;
     filter_phoneNumber := filter_phoneNumber op;
     set_name := set_name op; set_email := set_email op;
     set_syncedAt := 0 |}.

End Contacts.

(** ** SMS: single and batch sync *)

Inductive SmsType : Type := inbox | sent.

(** The Sms schema: every field is required; the compound index on
    [(userId, smsId)] is declared unique. *)
Record Sms : Type := mkSms {
  s_userId : ObjectId;
  s_smsId : string;
  s_address : string;
  s_body : string;
  s_date : Z;
  s_type : SmsType
}.

(** The keys the handlers read of an element of [req.body.smsData].
    [sms_date] is the value of [new Date(sms.date)], [None] when that is an
    invalid date. *)
Record SmsItem : Type := mkSmsItem {
  sms_id : option string;
  sms_address : option string;
  sms_body : option string;
  sms_date : option Z;
  sms_type : option string
}.

Module SmsSync.

(** One element of [req.body.smsData].  The handler only checks that
    [smsData] is an array, so an element can be JSON [null], whose keys
    cannot be read; every other JSON value can be asked for its keys and
    reads as an [SmsItem], with [None] for each key it lacks. *)
Inductive SmsElement : Type :=
| JsonNull
| JsonItem (sms : SmsItem).

Definition has_key (userId : ObjectId) (smsId : string) (d : Sms) : bool :=
  (s_userId d =? userId)%N && (s_smsId d =? smsId)%string.

(** [Sms.findOne({ userId, smsId })]; no stored document lacks its
    [smsId], so a missing one finds nothing. *)
Definition findOne (userId : ObjectId) (smsId : option string)
    (docs : list Sms) : option Sms :=
  match smsId with
  | Some i => find (has_key userId i) docs
  | None => None
  end.

Definition parse_type (t : option string) : option SmsType :=
  match t with
  | Some s =>
      if (s =? "inbox")%string then Some inbox
      else if (s =? "sent")%string then Some sent
      else None
  | None => None
  end.

(** The document [Sms.create] builds when schema validation passes:
    required strings must be present and non-empty, the date valid, the
    type one of the enum. *)
Definition validate (userId : ObjectId) (sms : SmsItem) : option Sms :=
  match sms_id sms, sms_address sms, sms_body sms, sms_date sms,
        parse_type (sms_type sms) with
  | Some i, Some a, Some b, Some d, Some t =>
      if Js.truthy (sms_id sms) && Js.truthy (sms_address sms)
         && Js.truthy (sms_body sms)
      then Some (mkSms userId i a b d t)
      else None
  | _, _, _, _, _ => None
  end.

(** What is thrown while an element is processed: the validation error
    and the duplicate-key error of [Sms.create], and the [TypeError] of
    reading [sms.id] when [sms] is [null]. *)
Inductive Thrown : Type :=
| ValidationFailed (userId : ObjectId) (sms : SmsItem)
| DuplicateKey (userId : ObjectId) (smsId : string)
| NullItem.

(** [Sms.create({...})]: the collection with the new document, or what is
    thrown. *)
Definition create (userId : ObjectId) (sms : SmsItem) (docs : list Sms)
    : Thrown + list Sms :=
  match validate userId sms with
  | None => inl (ValidationFailed userId sms)
  | Some d =>
      if existsb (has_key userId (s_smsId d)) docs
      then inl (DuplicateKey userId (s_smsId d))
      else inr (docs ++ [d])
  end.

(** The variables of the batch loop, and the collection. *)
Record Batch : Type := mkBatch {
  syncedCount : nat;
  skippedCount : nat;
  errors : list (option string * string);
  docs : list Sms
}.

(** The [data] of the batch response. *)
Record BatchData : Type := mkBatchData {
  synced : nat;
  skipped : nat;
  errorCount : nat;
  errorDetails : list (option string * string)
}.

(** What the body of the batch response carries besides [success] and
    [message]: the [data] of a completed batch, the [error] text of the
    outer [catch], or nothing. *)
Inductive BatchBody : Type :=
| Counters (data : BatchData)
| Failure (error : string)
| Bare.

(** The items of a batch that repeat a document stored for the user. *)
Definition is_stored (userId : ObjectId) (docs0 : list Sms) (sms : SmsItem) : bool :=
  match findOne userId (sms_id sms) docs0 with
  | Some _ => true
  | None => false
  end.

Definition duplicates (userId : ObjectId) (docs0 : list Sms)
    (items : list SmsItem) : nat :=
  List.length (filter (is_stored userId docs0) items).

(** The items that repeat no stored document but carry the identifier of
    an earlier item of the same batch that passes validation. *)
Definition same_id (a b : SmsItem) : bool :=
  match sms_id a, sms_id b with
  | Some x, Some y => (x =? y)%string
  | _, _ => false
  end.

Definition passes (userId : ObjectId) (sms : SmsItem) : bool :=
  match validate userId sms with
  | Some _ => true
  | None => false
  end.

Definition follows_valid (userId : ObjectId) (earlier : list SmsItem)
    (sms : SmsItem) : bool :=
  existsb (fun y => same_id y sms && passes userId y) earlier.

Fixpoint repeats_after (userId : ObjectId) (docs0 : list Sms)
    (earlier items : list SmsItem) : nat :=
  match items with
  | [] => 0
  | sms :: rest =>
      ((if negb (is_stored userId docs0 sms) && follows_valid userId earlier sms
        then 1 else 0)
       + repeats_after userId docs0 (earlier ++ [sms]) rest)%nat
  end.

Definition repeats (userId : ObjectId) (docs0 : list Sms)
    (items : list SmsItem) : nat :=
  repeats_after userId docs0 [] items.

Section WithMessages.

(** [err.message] of what is thrown: the texts are the library's and the
    engine's. *)
Variable err_message : Thrown -> string.

(** What the [try] and the [catch] of the loop body do with an element
    whose keys can be read. *)
Definition process_item (userId : ObjectId) (b : Batch) (sms : SmsItem) : Batch :=
  match findOne userId (sms_id sms) (docs b) with
  | Some _ =>
      mkBatch (syncedCount b) (S (skippedCount b)) (errors b) (docs b)
  | None =>
      match create userId sms (docs b) with
      | inr docs' =>
          mkBatch (S (syncedCount b)) (skippedCount b) (errors b) docs'
      | inl e =>
          mkBatch (syncedCount b) (skippedCount b)
            (errors b ++ [(sms_id sms, err_message e)]) (docs b)
      end
  end.

(** The body of [for (const sms of smsData) { try {...} catch {...} }]:
    the variables afterwards, or what leaves the loop.  For [null] the
    [try] throws on [sms.id], and so does the [catch], which reads
    [sms.id] again for its entry: that second error is not caught in the
    loop. *)
Definition process (userId : ObjectId) (b : Batch) (sms : SmsElement)
    : Batch + Thrown :=
  match sms with
  | JsonNull => inr NullItem
  | JsonItem item => inl (process_item userId b item)
  end.

(** The three ways the loop body ends for such an element. *)
Inductive Step (userId : ObjectId) (b : Batch) (sms : SmsItem) : Batch -> Prop :=
| step_skipped : forall existing,
    findOne userId (sms_id sms) (docs b) = Some existing ->
    Step userId b sms (mkBatch (syncedCount b) (S (skippedCount b)) (errors b) (docs b))
| step_synced : forall d,
    findOne userId (sms_id sms) (docs b) = None ->
    validate userId sms = Some d ->
    Step userId b sms (mkBatch (S (syncedCount b)) (skippedCount b) (errors b)
                  (docs b ++ [d]))
| step_failed :
    findOne userId (sms_id sms) (docs b) = None ->
    validate userId sms = None ->
    Step userId b sms
      (mkBatch (syncedCount b) (skippedCount b)
         (errors b ++ [(sms_id sms, err_message (ValidationFailed userId sms))])
         (docs b)).

(** The loop body over elements whose keys can all be read. *)
Definition run (userId : ObjectId) (items : list SmsItem) (b : Batch) : Batch :=
  fold_left (process_item userId) items b.

(** The loop: the variables when it ends, and what left it, if anything
    did.  The elements behind the one that throws are not processed. *)
Fixpoint loop (userId : ObjectId) (smsData : list SmsElement) (b : Batch)
    : Batch * option Thrown :=
  match smsData with
  | [] => (b, None)
  | sms :: rest =>
      match process userId b sms with
      | inl b' => loop userId rest b'
      | inr e => (b, Some e)
      end
  end.

(** [syncSmsBatch]: [userId] and [smsData] are those of the body, [None]
    for a missing [userId] and for an [smsData] that is not an array; a
    [userId] that is there is the text of an ObjectId.  What leaves the
    loop reaches the outer [catch], with the documents stored so far
    staying stored. *)
Definition syncSmsBatch (userId : option ObjectId)
    (smsData : option (list SmsElement)) (docs0 : list Sms)
    : Response BatchBody * list Sms :=
  match userId, smsData with
  | Some uid, Some items =>
      match loop uid items (mkBatch 0 0 [] docs0) with
      | (b, None) =>
          (mkResponse 200 true "SMS batch sync completed"
             (Counters {| synced := syncedCount b; skipped := skippedCount b;
                          errorCount := List.length (errors b);
                          errorDetails := errors b |}),
           docs b)
      | (b, Some e) =>
          (mkResponse 500 false "Failed to sync SMS batch"
             (Failure (err_message e)), docs b)
      end
  | _, _ =>
      (mkResponse 400 false "userId and smsData array are required" Bare, docs0)
  end.

End WithMessages.

End SmsSync.

(** ** Concrete data for the examples *)

Module Fixtures.

(** A token service that signs whenever a secret is configured. *)
Definition sign (id : ObjectId) (secret : option string) (expiresIn : string)
    : string + string :=
  match secret with
  | Some _ => inl "signed-token"
  | None => inr "secretOrPrivateKey must have a value"
  end.

(** A token service that accepts the one token of admin 7. *)
Definition verify (token : string) (secret : option string) : option ObjectId :=
  match secret with
  | Some _ => if (token =? "signed-token")%string then Some 7%N else None
  | None => None
  end.

(** A password check by comparison with the stored value. *)
Definition compare (password hash : string) : bool := (password =? hash)%string.

Definition env_production : Env :=
  {| NODE_ENV := Some "production"; STATIC_OTP := None;
     JWT_SECRET := Some "secret"; JWT_EXPIRE := None |}.

Definition env_static : Env :=
  {| NODE_ENV := Some "production"; STATIC_OTP := Some "123456";
     JWT_SECRET := Some "secret"; JWT_EXPIRE := None |}.

Definition phone : string := "9876543210".

(** A user waiting for verification with code 325000. *)
Definition alice : User :=
  {| u_id := 1%N; u_phoneNumber := phone;
     u_name := Some "Alice"; u_email := None; u_address := None;
     u_otp := Some "325000"; u_otpExpiry := Some 600000;
     u_isVerified := false; u_smsPermission := false;
     u_contactPermission := false; u_isProfileComplete := false;
     u_fcmToken := None |}.

(** A deactivated admin. *)
Definition root : Admin :=
  {| a_id := 7%N; a_email := "root@laundry.test"; a_password := "hunter2";
     a_name := "Root"; a_role := RoleSuperAdmin; a_isActive := false |}.


Definition bob : ContactInput :=
  {| in_name := "Bob"; in_phoneNumber := "5550001111"; in_email := None |}.

Definition robert : ContactInput :=
  {| in_name := "Robert"; in_phoneNumber := "5550001111";
     in_email := Some "bob@laundry.test" |}.

Definition hello : SmsItem :=
  {| sms_id := Some "m1"; sms_address := Some "+15550001111";
     sms_body := Some "hello"; sms_date := Some 1000;
     sms_type := Some "inbox" |}.

(** The same message identifier, without a body. *)
Definition hello_without_body : SmsItem :=
  {| sms_id := Some "m1"; sms_address := Some "+15550001111";
     sms_body := None; sms_date := Some 1000; sms_type := Some "inbox" |}.

(** Another message, without a body. *)
Definition broken : SmsItem :=
  {| sms_id := Some "m3"; sms_address := Some "+15550001111";
     sms_body := None; sms_date := Some 3000; sms_type := Some "inbox" |}.

(** The document [hello] is stored as for user 1. *)
Definition hello_doc : Sms :=
  mkSms 1%N "m1" "+15550001111" "hello" 1000 inbox.

Definition bye : SmsItem :=
  {| sms_id := Some "m2"; sms_address := Some "+15550001111";
     sms_body := Some "bye"; sms_date := Some 2000;
     sms_type := Some "sent" |}.

(** The texts of the errors in the examples, whose invalid items lack the
    body and nothing else. *)
Definition message (e : SmsSync.Thrown) : string :=
  match e with
  | SmsSync.ValidationFailed _ _ =>
      "Sms validation failed: body: Path `body` is required."
  | SmsSync.DuplicateKey _ _ => "E11000 duplicate key error"
  | SmsSync.NullItem => "Cannot read properties of null (reading 'id')"
  end.

End Fixtures.

(** * Properties *)

(** ** The user collection *)

Section UserCollection.

Lemma findOne_phoneNumber (p : string) (users : list User) (u : User) :
  Users.findOne p users = Some u -> u_phoneNumber u = p.
Proof.
  induction users as [|d rest IH]; simpl; [discriminate|].
  destruct (String.eqb_spec (u_phoneNumber d) p) as [E|_]; [|exact IH].
  intros [= <-]. exact E.
Qed.

(** A document loaded by phone number and saved back with the same [_id]
    and phone number is the one a later lookup returns. *)
Lemma findOne_save (p : string) (users : list User) (u u' : User) :
  Users.findOne p users = Some u ->
  u_id u' = u_id u -> u_phoneNumber u' = p ->
  Users.findOne p (Users.save u' users) = Some u'.
Proof.
  intros Hfind Hid Hphone.
  induction users as [|d rest IH]; simpl in *; [discriminate|].
  destruct (String.eqb_spec (u_phoneNumber d) p) as [E|NE].
  - injection Hfind as ->. rewrite Hid, N.eqb_refl. simpl.
    rewrite Hphone, String.eqb_refl. reflexivity.
  - destruct (N.eqb_spec (u_id d) (u_id u')) as [_|_]; simpl.
    + rewrite Hphone, String.eqb_refl. reflexivity.
    + destruct (String.eqb_spec (u_phoneNumber d) p); [contradiction|].
      apply IH, Hfind.
Qed.

Lemma save_length (u : User) (users : list User) :
  List.length (Users.save u users) = List.length users.
Proof.
  induction users as [|d rest IH]; simpl; [reflexivity|].
  destruct (u_id d =? u_id u)%N; simpl; congruence.
Qed.

Lemma findOne_created (p : string) (users : list User) (u : User) :
  Users.findOne p users = None -> u_phoneNumber u = p ->
  Users.findOne p (users ++ [u]) = Some u.
Proof.
  intros Hnone Hphone.
  induction users as [|d rest IH]; simpl in *.
  - rewrite Hphone, String.eqb_refl. reflexivity.
  - destruct (u_phoneNumber d =? p)%string; [discriminate|]. apply IH, Hnone.
Qed.

End UserCollection.

(** ** JavaScript primitives *)

Lemma truthy_Some (s : string) : Js.truthy (Some s) = true <-> s <> "".
Proof.
  simpl. destruct (String.eqb_spec s ""); simpl; split; congruence.
Qed.

Lemma or_else_truthy (a : option string) (b : string) :
  Js.truthy a = true -> a = Some (Js.or_else a b).
Proof.
  destruct a as [s|]; simpl; [|discriminate].
  destruct (s =? "")%string; simpl; [discriminate|reflexivity].
Qed.

Lemma or_else_falsy (a : option string) (b : string) :
  Js.truthy a = false -> Js.or_else a b = b.
Proof.
  destruct a as [s|]; simpl; [|reflexivity].
  destruct (s =? "")%string; simpl; [reflexivity|discriminate].
Qed.

Lemma phoneRegex_truthy (p : string) :
  Js.phoneRegex_test p = true -> Js.truthy (Some p) = true.
Proof.
  destruct p; [discriminate|reflexivity].
Qed.

(** ** One-time passcodes *)

Section Otp.

Variable jwt_sign : ObjectId -> option string -> string -> string + string.

(** The two OTP failures are different responses. *)
Lemma MismatchError_not_ExpiredError (A : Type) (a b : A) :
  Auth.MismatchError a <> Auth.ExpiredError b.
Proof. discriminate. Qed.

(** What a valid [sendOtp] request does. *)
Lemma sendOtp_valid env now r fresh p users :
  Js.phoneRegex_test p = true ->
  let otp := Js.or_else (STATIC_OTP env) (Auth.generateOTP r) in
  let '(res, users') := Auth.sendOtp env now r fresh (Some p) users in
  status res = 200 /\
  exists user,
    Users.findOne p users' = Some user /\
    u_otp user = Some otp /\
    u_otpExpiry user = Some (now + Auth.otpWindow) /\
    match Users.findOne p users with
    | Some old =>
        user = Users.set_otp (Some otp) (Some (now + Auth.otpWindow)) old /\
        List.length users' = List.length users
    | None => u_id user = fresh /\ users' = users ++ [user]
    end.
Proof.
  intros Hre. unfold Auth.sendOtp.
  rewrite (phoneRegex_truthy _ Hre), Hre. simpl negb. cbv iota.
  split; [reflexivity|].
  destruct (Users.findOne p users) as [old|] eqn:Hfind.
  - eexists. split; [|split; [|split; [|split]]].
    + apply (findOne_save p users old); [exact Hfind|reflexivity|].
      simpl. eapply findOne_phoneNumber, Hfind.
    + reflexivity.
    + reflexivity.
    + reflexivity.
    + apply save_length.
  - eexists. split; [|split; [|split; [|split]]].
    + apply findOne_created; [exact Hfind|reflexivity].
    + reflexivity.
    + reflexivity.
    + reflexivity.
    + reflexivity.
Qed.

(** A [sendOtp] answered with 200 was given a well-formed phone number. *)
Lemma sendOtp_200_valid env now r fresh p users :
  status (fst (Auth.sendOtp env now r fresh (Some p) users)) = 200 ->
  Js.phoneRegex_test p = true.
Proof.
  unfold Auth.sendOtp.
  destruct (Js.truthy (Some p)); simpl; [|discriminate].
  destruct (Js.phoneRegex_test p); simpl; [reflexivity|discriminate].
Qed.

(** What [verifyOtp] does once it has found the user. *)
Lemma verifyOtp_found env now p c users user :
  p <> "" -> c <> "" ->
  Users.findOne p users = Some user ->
  Auth.verifyOtp jwt_sign env now (Some p) (Some c) users =
    if Js.date_lt (u_otpExpiry user) now then (Auth.ExpiredError None, users)
    else if Js.strict_neq (u_otp user) c then (Auth.MismatchError None, users)
    else
      let user' := Users.set_otp None None (Users.set_isVerified true user) in
      match Auth.generateToken jwt_sign (u_id user') env with
      | inl token =>
          (mkResponse 200 true "OTP verified successfully"
             (Some (token, Auth.view user')), Users.save user' users)
      | inr msg => (Auth.InternalError msg None, Users.save user' users)
      end.
Proof.
  intros Hp Hc Hfind. unfold Auth.verifyOtp.
  apply truthy_Some in Hp, Hc. rewrite Hp, Hc, Hfind. simpl.
  destruct (Js.date_lt _ _); [reflexivity|].
  destruct (Js.strict_neq _ _); [reflexivity|].
  destruct (Auth.generateToken _ _ _); reflexivity.
Qed.

(** A [verifyOtp] answered with 200 had both fields, found the user,
    found the code unexpired and equal to the stored one, and stored the
    user verified and without OTP fields. *)
Lemma verifyOtp_200 env now p c users res users' :
  Auth.verifyOtp jwt_sign env now (Some p) (Some c) users = (res, users') ->
  status res = 200 ->
  p <> "" /\ c <> "" /\
  exists user,
    Users.findOne p users = Some user /\
    Js.date_lt (u_otpExpiry user) now = false /\
    u_otp user = Some c /\
    users' = Users.save
               (Users.set_otp None None (Users.set_isVerified true user)) users.
Proof.
  unfold Auth.verifyOtp.
  destruct (Js.truthy (Some p)) eqn:Hp;
    [|intros [= <- _]; discriminate].
  destruct (Js.truthy (Some c)) eqn:Hc;
    [|intros [= <- _]; discriminate].
  apply truthy_Some in Hp, Hc. cbn [negb orb].
  destruct (Users.findOne p users) as [user|] eqn:Hfind;
    [|intros [= <- _]; discriminate].
  destruct (Js.date_lt _ _) eqn:Hexp; [intros [= <- _]; discriminate|].
  destruct (Js.strict_neq _ _) eqn:Hne; [intros [= <- _]; discriminate|].
  destruct (Auth.generateToken _ _ _); intros [= <- <-] Hst;
    [|discriminate].
  split; [exact Hp|]. split; [exact Hc|].
  exists user. split; [reflexivity|]. split; [exact Hexp|].
  split; [|reflexivity].
  unfold Js.strict_neq in Hne.
  destruct (u_otp user) as [stored|]; [|discriminate].
  destruct (String.eqb_spec stored c); [congruence|discriminate].
Qed.

(** C1.  After a successful [verifyOtp] the user is stored verified with
    both OTP fields absent, and verifying again with the same phone number
    and the same code, at any later time and with nothing requested in
    between, is answered with [MismatchError] and changes nothing: it
    neither succeeds nor reports an expired code. *)
Theorem verifyOtp_replay_rejected env now p c users res users' :
  Auth.verifyOtp jwt_sign env now (Some p) (Some c) users = (res, users') ->
  status res = 200 ->
  (exists user,
      Users.findOne p users' = Some user /\
      u_otp user = None /\ u_otpExpiry user = None /\
      u_isVerified user = true) /\
  forall now',
    Auth.verifyOtp jwt_sign env now' (Some p) (Some c) users'
    = (Auth.MismatchError None, users').
Proof.
  intros Hrun Hok.
  destruct (verifyOtp_200 _ _ _ _ _ _ _ Hrun Hok)
    as (Hp & Hc & user & Hfind & _ & _ & ->).
  set (user' := Users.set_otp None None (Users.set_isVerified true user)).
  assert (Hfind' : Users.findOne p (Users.save user' users) = Some user').
  { apply (findOne_save p users user); [exact Hfind|reflexivity|].
    simpl. eapply findOne_phoneNumber, Hfind. }
  split.
  - exists user'. repeat split. exact Hfind'.
  - intro now'. rewrite (verifyOtp_found _ _ _ _ _ user' Hp Hc Hfind').
    reflexivity.
Qed.

(** C5.  When the stored expiry of the user lies before the current time,
    [verifyOtp] answers [ExpiredError] whatever code is presented, the
    stored one included, and changes nothing; and when the stored fields
    come from a [sendOtp] at time [t0], that expiry is [t0] plus ten
    minutes. *)
Theorem verifyOtp_expiry_first env now p c users user e :
  p <> "" -> c <> "" ->
  Users.findOne p users = Some user ->
  u_otpExpiry user = Some e ->
  e < now ->
  Auth.verifyOtp jwt_sign env now (Some p) (Some c) users
    = (Auth.ExpiredError None, users)
  /\ (u_otp user = Some c ->
      Auth.verifyOtp jwt_sign env now (Some p) (u_otp user) users
        = (Auth.ExpiredError None, users))
  /\ (forall env0 t0 r fresh users0,
        status (fst (Auth.sendOtp env0 t0 r fresh (Some p) users0)) = 200 ->
        snd (Auth.sendOtp env0 t0 r fresh (Some p) users0) = users ->
        e = t0 + 10 * 60 * 1000).
Proof.
  intros Hp Hc Hfind He Hlt.
  assert (Hexp : Auth.verifyOtp jwt_sign env now (Some p) (Some c) users
                 = (Auth.ExpiredError None, users)).
  { rewrite (verifyOtp_found _ _ _ _ _ user Hp Hc Hfind), He. simpl.
    apply Z.ltb_lt in Hlt. rewrite Hlt. reflexivity. }
  split; [exact Hexp|]. split.
  - intros ->. exact Hexp.
  - intros env0 t0 r fresh users0 Hok Hsend.
    pose proof (sendOtp_valid env0 t0 r fresh p users0
                  (sendOtp_200_valid _ _ _ _ _ _ Hok)) as Hv.
    cbv zeta in Hv.
    destruct (Auth.sendOtp env0 t0 r fresh (Some p) users0) as [res0 users1].
    simpl in Hsend. subst users1.
    destruct Hv as (_ & user1 & Hfind1 & _ & He1 & _).
    rewrite Hfind in Hfind1. injection Hfind1 as <-.
    rewrite He in He1. injection He1 as ->. reflexivity.
Qed.



(** What a [resendOtp] request does for a user it finds. *)
Lemma resendOtp_found env now r p users old :
  p <> "" ->
  Users.findOne p users = Some old ->
  let user := Users.set_otp (Some (Auth.generateOTP r))
                (Some (now + Auth.otpWindow)) old in
  let '(res, users') := Auth.resendOtp env now r (Some p) users in
  status res = 200 /\
  users' = Users.save user users /\
  Users.findOne p users' = Some user.
Proof.
  intros Hp Hfind. unfold Auth.resendOtp.
  apply truthy_Some in Hp. rewrite Hp, Hfind. simpl.
  split; [reflexivity|]. split; [reflexivity|].
  apply (findOne_save p users old); [exact Hfind|reflexivity|].
  simpl. eapply findOne_phoneNumber, Hfind.
Qed.



End Otp.

(** *** Examples for the OTP properties *)

Lemma verifyOtp_replay_rejected_witness :
  let run := Auth.verifyOtp Fixtures.sign Fixtures.env_production 1000
               (Some Fixtures.phone) (Some "325000") [Fixtures.alice] in
  status (fst run) = 200 /\
  forall now',
    Auth.verifyOtp Fixtures.sign Fixtures.env_production now'
      (Some Fixtures.phone) (Some "325000") (snd run)
    = (Auth.MismatchError None, snd run).
Proof.
  split; [reflexivity|].
  exact (proj2 (verifyOtp_replay_rejected Fixtures.sign Fixtures.env_production
                  1000 Fixtures.phone "325000" [Fixtures.alice] _ _
                  eq_refl eq_refl)).
Defined.

Lemma verifyOtp_expiry_first_witness :
  600000 < 600001 /\
  Auth.verifyOtp Fixtures.sign Fixtures.env_production 600001
    (Some Fixtures.phone) (Some "325000") [Fixtures.alice]
  = (Auth.ExpiredError None, [Fixtures.alice]).
Proof.
  split; [reflexivity|].
  refine (proj1 (verifyOtp_expiry_first Fixtures.sign Fixtures.env_production
                   600001 Fixtures.phone "325000" [Fixtures.alice]
                   Fixtures.alice 600000 _ _ eq_refl eq_refl eq_refl));
    discriminate.
Defined.



(** ** Resending a code *)

(** [resendOtp] answers [NotFoundError] for a phone number without a user and
    creates none. *)
Lemma resendOtp_no_user env now r p users :
  p <> "" ->
  Users.findOne p users = None ->
  Auth.resendOtp env now r (Some p) users = (Auth.NotFoundError None, users).
Proof.
  intros Hp Hfind. unfold Auth.resendOtp.
  apply truthy_Some in Hp. rewrite Hp, Hfind. reflexivity.
Qed.

(** Without the static override, [resendOtp] stores for an existing user what
    [sendOtp] stores. *)
Lemma resendOtp_as_sendOtp_without_override env now r fresh p users old :
  Js.truthy (STATIC_OTP env) = false ->
  Js.phoneRegex_test p = true ->
  Users.findOne p users = Some old ->
  snd (Auth.resendOtp env now r (Some p) users)
  = snd (Auth.sendOtp env now r fresh (Some p) users).
Proof.
  intros Hs Hre Hfind. unfold Auth.resendOtp, Auth.sendOtp.
  rewrite (phoneRegex_truthy _ Hre), Hre, Hfind, (or_else_falsy _ _ Hs).
  reflexivity.
Qed.

(** With the static override, [resendOtp] stores the code it draws and not
    the configured one. *)
Lemma resendOtp_stores_drawn_code env now r p users old :
  p <> "" ->
  Users.findOne p users = Some old ->
  exists user,
    Users.findOne p (snd (Auth.resendOtp env now r (Some p) users)) = Some user /\
    u_otp user = Some (Auth.generateOTP r).
Proof.
  intros Hp Hfind.
  pose proof (resendOtp_found env now r p users old Hp Hfind) as Hv.
  cbv zeta in Hv.
  destruct (Auth.resendOtp env now r (Some p) users) as [res users'].
  destruct Hv as (_ & _ & Hfind'). eexists. split; [exact Hfind'|reflexivity].
Qed.

(** C6.  With [STATIC_OTP=123456] configured and a user on file, [sendOtp]
    stores the configured code while [resendOtp] stores the code it draws
    (here 325000) and, outside development, does not return it either. *)
Example resendOtp_ignores_static_otp :
  let sent := Auth.sendOtp Fixtures.env_static 0 (1 # 4) 2%N
                (Some Fixtures.phone) [Fixtures.alice] in
  let resent := Auth.resendOtp Fixtures.env_static 0 (1 # 4)
                  (Some Fixtures.phone) [Fixtures.alice] in
  option_map u_otp (Users.findOne Fixtures.phone (snd sent))
    = Some (Some "123456") /\
  option_map u_otp (Users.findOne Fixtures.phone (snd resent))
    = Some (Some "325000") /\
  option_map u_otpExpiry (Users.findOne Fixtures.phone (snd sent))
    = option_map u_otpExpiry (Users.findOne Fixtures.phone (snd resent)) /\
  payload (fst sent) = Some "123456" /\
  payload (fst resent) = None.
Proof.
  repeat split.
Qed.

(** ** What the OTP response reveals *)

(** C7.  In production mode the response of [sendOtp] is the same whatever
    code is drawn, whenever the request is made and whatever the collection
    holds; and if it carries a code at all, the static override is active and
    the code is the configured value.  So the code is in the response only
    outside production or under the static override. *)
Theorem sendOtp_production_response env :
  Auth.production env ->
  forall now r fresh phoneNumber users,
    (forall now' r' fresh' users',
        fst (Auth.sendOtp env now' r' fresh' phoneNumber users')
        = fst (Auth.sendOtp env now r fresh phoneNumber users)) /\
    (forall otp,
        payload (fst (Auth.sendOtp env now r fresh phoneNumber users)) = Some otp ->
        Js.truthy (STATIC_OTP env) = true /\ STATIC_OTP env = Some otp).
Proof.
  unfold Auth.production. intros Hprod now r fresh phoneNumber users.
  unfold Auth.sendOtp. rewrite Hprod.
  destruct phoneNumber as [p|]; [|split; [reflexivity|discriminate]].
  destruct (Js.truthy (Some p)); cbn [negb];
    [|split; [reflexivity|discriminate]].
  destruct (Js.phoneRegex_test p); cbn [negb];
    [|split; [reflexivity|discriminate]].
  cbn [fst payload orb String.eqb Ascii.eqb Bool.eqb].
  destruct (Js.truthy (STATIC_OTP env)) eqn:Hs.
  - pose proof (or_else_truthy (STATIC_OTP env)) as E.
    split.
    + intros now' r' fresh' users'. simpl.
      pose proof (E (Auth.generateOTP r) Hs) as E1.
      pose proof (E (Auth.generateOTP r') Hs) as E2.
      rewrite E1 in E2 at 1. injection E2 as <-. reflexivity.
    + simpl. intros otp [= <-]. split; [reflexivity|]. apply E, Hs.
  - split; [reflexivity|]. simpl. discriminate.
Qed.

Lemma sendOtp_production_response_witness :
  Auth.production Fixtures.env_production /\
  fst (Auth.sendOtp Fixtures.env_production 5 (1 # 2) 9%N
         (Some Fixtures.phone) [Fixtures.alice])
  = fst (Auth.sendOtp Fixtures.env_production 0 (1 # 4) 2%N
           (Some Fixtures.phone) []).
Proof.
  split; [reflexivity|].
  exact (proj1 (sendOtp_production_response Fixtures.env_production eq_refl
                  0 (1 # 4) 2%N (Some Fixtures.phone) [])
           5 (1 # 2) 9%N [Fixtures.alice]).
Defined.

(** ** The admin guard and the active flag *)

Section AdminGuard.

Variable bcrypt_compare : string -> string -> bool.
Variable jwt_sign : ObjectId -> option string -> string -> string + string.
Variable jwt_verify : string -> option string -> option ObjectId.

(** No credential logs a deactivated admin in. *)
Lemma adminLogin_inactive env email password admins admin :
  Admins.findOne email admins = Some admin ->
  a_isActive admin = false ->
  success (AdminAuth.adminLogin bcrypt_compare jwt_sign env
             (Some email) password admins) = false.
Proof.
  intros Hfind Hoff. unfold AdminAuth.adminLogin.
  destruct password as [pw|]; [|reflexivity].
  destruct (negb (Js.truthy (Some email)) || negb (Js.truthy (Some pw)));
    [reflexivity|].
  rewrite Hfind, Hoff.
  destruct (bcrypt_compare pw (a_password admin)); reflexivity.
Qed.

(** C8.  For an admin whose active flag is false, [adminLogin] with the
    admin's e-mail and the correct password is answered 401, "Account is
    deactivated" (and no other password succeeds either), while
    [adminProtect], given a bearer token that verifies to this admin's
    identifier, lets the request through as this admin: the guard looks the
    admin up and never reads the flag. *)
Theorem deactivated_admin_token_still_passes
    env email password authorization token admins admin :
  email <> "" -> password <> "" ->
  Admins.findOne email admins = Some admin ->
  a_isActive admin = false ->
  bcrypt_compare password (a_password admin) = true ->
  AdminAuth.bearer_token authorization = Some token ->
  token <> "" ->
  jwt_verify token (JWT_SECRET env) = Some (a_id admin) ->
  Admins.findById (a_id admin) admins = Some admin ->
  AdminAuth.adminLogin bcrypt_compare jwt_sign env
      (Some email) (Some password) admins
    = mkResponse 401 false "Account is deactivated" None
  /\ (forall password',
        success (AdminAuth.adminLogin bcrypt_compare jwt_sign env
                   (Some email) password' admins) = false)
  /\ AdminAuth.adminProtect jwt_verify env authorization admins
     = AdminAuth.Next admin.
Proof.
  intros Hem Hpw Hfind Hoff Hmatch Htok Htok_ne Hverify Hid.
  split; [|split].
  - unfold AdminAuth.adminLogin.
    apply truthy_Some in Hem, Hpw. rewrite Hem, Hpw, Hfind, Hmatch, Hoff.
    reflexivity.
  - intro password'. eapply adminLogin_inactive; eassumption.
  - unfold AdminAuth.adminProtect.
    apply truthy_Some in Htok_ne. rewrite Htok, Htok_ne, Hverify, Hid.
    reflexivity.
Qed.

End AdminGuard.

Lemma deactivated_admin_token_still_passes_witness :
  a_isActive Fixtures.root = false /\
  AdminAuth.adminLogin Fixtures.compare Fixtures.sign Fixtures.env_production
      (Some "root@laundry.test") (Some "hunter2") [Fixtures.root]
    = mkResponse 401 false "Account is deactivated" None
  /\ AdminAuth.adminProtect Fixtures.verify Fixtures.env_production
       (Some "Bearer signed-token") [Fixtures.root]
     = AdminAuth.Next Fixtures.root.
Proof.
  split; [reflexivity|].
  assert (H := deactivated_admin_token_still_passes
                 Fixtures.compare Fixtures.sign Fixtures.verify
                 Fixtures.env_production "root@laundry.test" "hunter2"
                 (Some "Bearer signed-token") "signed-token"
                 [Fixtures.root] Fixtures.root).
  destruct H as (Hlogin & _ & Hguard);
    [discriminate|discriminate|reflexivity|reflexivity|reflexivity
    |reflexivity|discriminate|reflexivity|reflexivity|].
  split; [exact Hlogin|exact Hguard].
Defined.

(** ** Cancelling an order *)

Section OrderCancel.




End OrderCancel.


(** ** Contact sync: upserts, idempotence and the unique key *)

Section ContactUpserts.

Import Contacts.

#[local] Arguments matches : simpl never.
#[local] Arguments apply_set : simpl never.
#[local] Arguments upserted : simpl never.

Lemma matches_spec op d :
  reflect (index_key d = filter_key op) (matches op d).
Proof.
  unfold matches, index_key, filter_key.
  destruct (N.eqb_spec (c_userId d) (filter_userId op)) as [E1|N1];
    destruct (String.eqb_spec (c_phoneNumber d) (filter_phoneNumber op))
      as [E2|N2]; simpl; constructor; congruence.
Qed.

Lemma matches_same_key op op' d :
  filter_key op = filter_key op' -> matches op d = matches op' d.
Proof.
  intro E. destruct (matches_spec op d), (matches_spec op' d);
    congruence.
Qed.

Lemma matches_apply_set op op' d :
  matches op (apply_set op' d) = matches op d.
Proof. reflexivity. Qed.

Lemma matches_upserted op : matches op (upserted op) = true.
Proof.
  unfold matches, upserted. simpl.
  rewrite N.eqb_refl, String.eqb_refl. reflexivity.
Qed.

Lemma matches_upserted_other op op' :
  filter_key op <> filter_key op' -> matches op (upserted op') = false.
Proof.
  intro NE. destruct (matches_spec op (upserted op')) as [E|_];
    [|reflexivity].
  exfalso. apply NE. symmetry. exact E.
Qed.

(** A matched document after the [$set] is the document the upsert would
    have inserted: the filter and the [$set] cover every field. *)
Lemma apply_set_matched op d :
  matches op d = true -> apply_set op d = upserted op.
Proof.
  intro M. destruct (matches_spec op d) as [E|]; [|discriminate].
  unfold index_key, filter_key in E. injection E as E1 E2.
  unfold apply_set, upserted. rewrite E1, E2. reflexivity.
Qed.

(** *** One operation *)

Lemma updateOne_keys op docs :
  map index_key (updateOne op docs)
  = map index_key docs
    ++ (if existsb (matches op) docs then [] else [filter_key op]).
Proof.
  induction docs as [|d rest IH]; simpl; [reflexivity|].
  destruct (matches op d) eqn:M; simpl.
  - rewrite app_nil_r. reflexivity.
  - rewrite IH. reflexivity.
Qed.

Lemma updateOne_present op docs :
  existsb (matches op) (updateOne op docs) = true.
Proof.
  induction docs as [|d rest IH]; simpl.
  - rewrite matches_upserted. reflexivity.
  - destruct (matches op d) eqn:M; simpl.
    + rewrite matches_apply_set, M. reflexivity.
    + rewrite M, IH. reflexivity.
Qed.

Lemma updateOne_keeps_present op op' docs :
  existsb (matches op) docs = true ->
  existsb (matches op) (updateOne op' docs) = true.
Proof.
  induction docs as [|d rest IH]; simpl; [discriminate|].
  destruct (matches op' d) eqn:M'; simpl.
  - rewrite matches_apply_set. tauto.
  - destruct (matches op d); simpl; [reflexivity|exact IH].
Qed.

Lemma updateOne_find_same op docs :
  find (matches op) (updateOne op docs) = Some (upserted op).
Proof.
  induction docs as [|d rest IH]; simpl.
  - rewrite matches_upserted. reflexivity.
  - destruct (matches op d) eqn:M; simpl.
    + rewrite matches_apply_set, M, (apply_set_matched _ _ M). reflexivity.
    + rewrite M. exact IH.
Qed.

Lemma updateOne_find_other op op' docs :
  filter_key op <> filter_key op' ->
  find (matches op) (updateOne op' docs) = find (matches op) docs.
Proof.
  intro NE. induction docs as [|d rest IH]; simpl.
  - rewrite (matches_upserted_other _ _ NE). reflexivity.
  - destruct (matches op' d) eqn:M'; simpl.
    + rewrite matches_apply_set.
      destruct (matches op d) eqn:M; [|reflexivity].
      exfalso. apply NE.
      destruct (matches_spec op d), (matches_spec op' d);
        congruence.
    + destruct (matches op d); [reflexivity|exact IH].
Qed.

(** An operation whose document is already in place changes nothing. *)
Lemma updateOne_fixed op docs :
  find (matches op) docs = Some (upserted op) -> updateOne op docs = docs.
Proof.
  induction docs as [|d rest IH]; simpl; [discriminate|].
  destruct (matches op d) eqn:M.
  - intros [= ->]. rewrite (apply_set_matched _ _ M). reflexivity.
  - intro H. rewrite (IH H). reflexivity.
Qed.

(** A later operation on the same key overrides an earlier one. *)
Lemma updateOne_absorbs op1 op2 docs :
  filter_key op1 = filter_key op2 ->
  updateOne op2 (updateOne op1 docs) = updateOne op2 docs.
Proof.
  intro E. induction docs as [|d rest IH]; simpl.
  - rewrite <- (matches_same_key _ _ (upserted op1) E), matches_upserted.
    rewrite apply_set_matched; [reflexivity|].
    rewrite <- (matches_same_key _ _ _ E). apply matches_upserted.
  - rewrite <- (matches_same_key _ _ d E).
    destruct (matches op1 d) eqn:M; simpl.
    + rewrite <- (matches_same_key _ _ _ E), matches_apply_set, M.
      rewrite !apply_set_matched; [reflexivity| |].
      * rewrite <- (matches_same_key _ _ _ E). exact M.
      * rewrite <- (matches_same_key _ _ _ E), matches_apply_set. exact M.
    + rewrite <- (matches_same_key _ _ _ E), M, IH. reflexivity.
Qed.

(** Operations on different keys commute once the first key is stored. *)
Lemma updateOne_commutes op1 op2 docs :
  filter_key op1 <> filter_key op2 ->
  existsb (matches op1) docs = true ->
  updateOne op2 (updateOne op1 docs) = updateOne op1 (updateOne op2 docs).
Proof.
  intro NE. induction docs as [|d rest IH]; simpl; [discriminate|].
  destruct (matches op1 d) eqn:M1; simpl.
  - intros _.
    assert (M2 : matches op2 d = false).
    { destruct (matches op2 d) eqn:M2; [|reflexivity].
      exfalso. apply NE.
      destruct (matches_spec op1 d), (matches_spec op2 d); congruence. }
    rewrite matches_apply_set, M2. simpl. rewrite M1. reflexivity.
  - intro P. destruct (matches op2 d) eqn:M2; simpl.
    + rewrite matches_apply_set, M1. reflexivity.
    + rewrite M1, (IH P). reflexivity.
Qed.

(** *** A batch of operations *)

Lemma updateMany_cons op ops docs :
  updateMany (op :: ops) docs = updateMany ops (updateOne op docs).
Proof. reflexivity. Qed.

Lemma bulkWrite_from_docs r ops docs :
  snd (bulkWrite_from r ops docs) = updateMany ops docs.
Proof.
  revert r docs. induction ops as [|op ops IH]; intros r docs; simpl;
    [reflexivity|apply IH].
Qed.

Lemma updateMany_keeps_present op ops docs :
  existsb (matches op) docs = true ->
  existsb (matches op) (updateMany ops docs) = true.
Proof.
  revert docs. induction ops as [|o ops IH]; intros docs P; simpl;
    [exact P|].
  apply IH, updateOne_keeps_present, P.
Qed.

Lemma updateMany_present ops docs op :
  In op ops -> existsb (matches op) (updateMany ops docs) = true.
Proof.
  revert docs. induction ops as [|o ops IH]; intros docs I;
    [contradiction|destruct I as [E|I]].
  - subst o. simpl. apply updateMany_keeps_present, updateOne_present.
  - simpl. apply IH, I.
Qed.

Lemma updateMany_find_other op ops docs :
  ~ In (filter_key op) (map filter_key ops) ->
  find (matches op) (updateMany ops docs) = find (matches op) docs.
Proof.
  revert docs. induction ops as [|o ops IH]; intros docs N; simpl;
    [reflexivity|].
  simpl in N. rewrite IH by tauto.
  apply updateOne_find_other. intro E. apply N. left. symmetry. exact E.
Qed.

(** An operation whose key the batch sets again leaves no trace. *)
Lemma updateMany_absorbs op ops docs :
  In (filter_key op) (map filter_key ops) ->
  (forall o, In o ops -> existsb (matches o) docs = true) ->
  updateMany ops (updateOne op docs) = updateMany ops docs.
Proof.
  revert docs. induction ops as [|o ops IH]; intros docs I P; [contradiction|].
  rewrite !updateMany_cons.
  destruct (key_eq_dec (filter_key op) (filter_key o)) as [E|NE].
  - rewrite updateOne_absorbs by exact E. reflexivity.
  - destruct I as [E|I]; [symmetry in E; contradiction|].
    rewrite <- updateOne_commutes.
    + apply IH; [exact I|].
      intros o' I'. apply updateOne_keeps_present, P. right. exact I'.
    + intro E. apply NE. symmetry. exact E.
    + apply P. left. reflexivity.
Qed.

(** An operation on a stored key the batch does not touch can be moved
    behind the batch. *)
Lemma updateMany_commutes op ops docs :
  ~ In (filter_key op) (map filter_key ops) ->
  existsb (matches op) docs = true ->
  updateMany ops (updateOne op docs) = updateOne op (updateMany ops docs).
Proof.
  revert docs. induction ops as [|o ops IH]; intros docs N P; [reflexivity|].
  rewrite !updateMany_cons. simpl in N.
  rewrite (updateOne_commutes op o);
    [|intro E; apply N; left; symmetry; exact E|exact P].
  apply IH; [tauto|]. apply updateOne_keeps_present, P.
Qed.

(** Running a batch on its own result changes nothing. *)
Lemma updateMany_idempotent ops docs :
  updateMany ops (updateMany ops docs) = updateMany ops docs.
Proof.
  revert docs. induction ops as [|o ops IH]; intro docs; [reflexivity|].
  rewrite !updateMany_cons.
  set (t := updateOne o docs).
  assert (Pt : existsb (matches o) (updateMany ops t) = true)
    by apply updateMany_keeps_present, updateOne_present.
  destruct (in_dec key_eq_dec (filter_key o) (map filter_key ops)) as [I|N].
  - rewrite updateMany_absorbs; [apply IH|exact I|].
    intros o' I'. apply updateMany_present, I'.
  - rewrite updateMany_commutes by assumption.
    rewrite IH. apply updateOne_fixed.
    rewrite updateMany_find_other by exact N.
    apply updateOne_find_same.
Qed.

End ContactUpserts.

Section ContactSync.

Import Contacts.

#[local] Arguments matches : simpl never.
#[local] Arguments apply_set : simpl never.
#[local] Arguments upserted : simpl never.

(** *** Sync stamps *)

Lemma unstamped_keys docs :
  map index_key (map unstamped docs) = map index_key docs.
Proof. rewrite map_map. reflexivity. Qed.

Lemma unstamped_updateOne op docs :
  map unstamped (updateOne op docs)
  = updateOne (unstamped_op op) (map unstamped docs).
Proof.
  induction docs as [|d rest IH]; simpl; [reflexivity|].
  change (matches (unstamped_op op) (unstamped d)) with (matches op d).
  destruct (matches op d); simpl; [reflexivity|].
  rewrite IH. reflexivity.
Qed.

Lemma unstamped_updateMany ops docs :
  map unstamped (updateMany ops docs)
  = updateMany (map unstamped_op ops) (map unstamped docs).
Proof.
  revert docs. induction ops as [|o ops IH]; intro docs; [reflexivity|].
  simpl map. rewrite !updateMany_cons, IH, unstamped_updateOne.
  reflexivity.
Qed.

Lemma unstamped_bulkOps userId now contacts :
  map unstamped_op (map (bulkOp userId now) contacts)
  = map (bulkOp userId 0) contacts.
Proof.
  rewrite map_map. reflexivity.
Qed.

(** *** The unique key *)

Lemma absent_key op docs :
  existsb (matches op) docs = false ->
  ~ In (filter_key op) (map index_key docs).
Proof.
  induction docs as [|d rest IH]; simpl; [tauto|].
  destruct (matches_spec op d) as [E|NE]; simpl; [discriminate|].
  intros H [E|I]; [exact (NE E)|exact (IH H I)].
Qed.

Lemma updateOne_unique op docs :
  NoDup (map index_key docs) -> NoDup (map index_key (updateOne op docs)).
Proof.
  intro ND. rewrite updateOne_keys.
  destruct (existsb (matches op) docs) eqn:P.
  - rewrite app_nil_r. exact ND.
  - apply NoDup_app; [exact ND|repeat constructor; intros []|].
    intros k I [<-|[]]. exact (absent_key _ _ P I).
Qed.

Lemma updateMany_unique ops docs :
  NoDup (map index_key docs) -> NoDup (map index_key (updateMany ops docs)).
Proof.
  revert docs. induction ops as [|o ops IH]; intros docs ND; [exact ND|].
  rewrite updateMany_cons. apply IH, updateOne_unique, ND.
Qed.

Lemma deleteMany_unique userId docs :
  NoDup (map index_key docs) ->
  NoDup (map index_key (deleteMany userId docs)).
Proof.
  unfold deleteMany.
  induction docs as [|d rest IH]; simpl; [trivial|].
  intro ND. inversion ND as [|k ks Hnotin ND' E]; subst.
  destruct (negb (c_userId d =? userId)%N); simpl; [|exact (IH ND')].
  constructor; [|exact (IH ND')].
  intro I. apply Hnotin. clear -I.
  induction rest as [|e rest IH]; simpl in *; [exact I|].
  destruct (negb (c_userId e =? userId)%N); simpl in *; tauto.
Qed.

(** *** The handler *)

Lemma findById_after_update userId b users :
  Users.findById userId (Users.findByIdAndUpdate_contactPermission userId b users)
  = option_map (Users.set_contactPermission b) (Users.findById userId users).
Proof.
  induction users as [|u rest IH]; simpl; [reflexivity|].
  destruct (u_id u =? userId)%N eqn:E; simpl; rewrite E; [reflexivity|exact IH].
Qed.

(** The collections [syncContacts] leaves behind. *)
Lemma syncContacts_state userId contacts userPhoneNumber now users docs :
  snd (fst (syncContacts userId contacts userPhoneNumber now users docs)) =
    match contacts with
    | Some cs =>
        if (List.length cs =? 0)%nat then users else
          match Users.findById userId users with
          | Some _ => Users.findByIdAndUpdate_contactPermission userId true users
          | None => users
          end
    | None => users
    end
  /\
  snd (syncContacts userId contacts userPhoneNumber now users docs) =
    match contacts with
    | Some cs =>
        if (List.length cs =? 0)%nat then docs else
          match Users.findById userId users with
          | Some user =>
              updateMany
                (map (bulkOp userId now) (with_own_number user userPhoneNumber cs))
                docs
          | None => docs
          end
    | None => docs
    end.
Proof.
  unfold syncContacts.
  destruct contacts as [cs|]; [|split; reflexivity].
  destruct (List.length cs =? 0)%nat; [split; reflexivity|].
  destruct (Users.findById userId users) as [user|]; [|split; reflexivity].
  unfold bulkWrite.
  rewrite <- (bulkWrite_from_docs (mkBulkWriteResult 0 0 0)).
  destruct (bulkWrite_from _ _ docs) as [result docs']. split; reflexivity.
Qed.

Lemma syncContacts_unique userId contacts userPhoneNumber now users docs :
  NoDup (map index_key docs) ->
  NoDup (map index_key
           (snd (syncContacts userId contacts userPhoneNumber now users docs))).
Proof.
  intro ND.
  rewrite (proj2 (syncContacts_state _ _ _ _ _ _)).
  destruct contacts as [cs|]; [|exact ND].
  destruct (List.length cs =? 0)%nat; [exact ND|].
  destruct (Users.findById userId users); [|exact ND].
  apply updateMany_unique, ND.
Qed.

(** *** What the second sync reports *)

Lemma outcome_present op docs :
  existsb (matches op) docs = true -> updateOne_outcome op docs <> Upserted.
Proof.
  induction docs as [|d rest IH]; simpl; [discriminate|].
  destruct (matches op d); simpl; [|exact IH].
  intros _. destruct (contact_eqb _ _); discriminate.
Qed.

(** A batch whose keys are all stored upserts nothing. *)
Lemma bulkWrite_from_upserts_nothing r ops docs :
  (forall o, In o ops -> existsb (matches o) docs = true) ->
  upsertedCount (fst (bulkWrite_from r ops docs)) = upsertedCount r.
Proof.
  revert r docs. induction ops as [|o ops IH]; intros r docs P; simpl;
    [reflexivity|].
  rewrite IH.
  - pose proof (outcome_present o docs (P o (or_introl eq_refl))) as NU.
    destruct (updateOne_outcome o docs); [contradiction|reflexivity|reflexivity].
  - intros o' I. apply updateOne_keeps_present, P. right. exact I.
Qed.

Lemma present_same_key op op' docs :
  filter_key op = filter_key op' ->
  existsb (matches op) docs = existsb (matches op') docs.
Proof.
  intro E. induction docs as [|d rest IH]; simpl; [reflexivity|].
  rewrite (matches_same_key _ _ d E), IH. reflexivity.
Qed.

Lemma bulkOps_present userId now1 now2 contacts docs o :
  In o (map (bulkOp userId now2) contacts) ->
  existsb (matches o)
    (updateMany (map (bulkOp userId now1) contacts) docs) = true.
Proof.
  intro I. apply in_map_iff in I. destruct I as (c & <- & Ic).
  rewrite (present_same_key _ (bulkOp userId now1 c)) by reflexivity.
  apply updateMany_present, in_map, Ic.
Qed.

(** Every reachable contact collection has pairwise different keys. *)
Lemma reachable_unique docs :
  reachable docs -> NoDup (map index_key docs).
Proof.
  induction 1 as [|userId contacts phone now users docs _ IH
                  |userId users docs _ IH].
  - constructor.
  - apply syncContacts_unique, IH.
  - apply deleteMany_unique, IH.
Qed.

(** C3.  Syncing the same batch a second time (same user, same contacts,
    same own number) leaves the rows the first sync left: the same rows in
    the same order, equal in every field but the sync stamp, which the
    second call sets to its own time (and equal in that too when the two
    calls read the same time); the second call reports no inserted row.
    And in every collection the handlers can produce from the empty one,
    no two rows have the same [(userId, phoneNumber)]. *)
Theorem syncContacts_idempotent_and_unique :
  (forall userId contacts userPhoneNumber now1 now2 users docs,
      let once := syncContacts userId contacts userPhoneNumber now1 users docs in
      let twice := syncContacts userId contacts userPhoneNumber now2
                     (snd (fst once)) (snd once) in
      map unstamped (snd twice) = map unstamped (snd once)
      /\ map index_key (snd twice) = map index_key (snd once)
      /\ List.length (snd twice) = List.length (snd once)
      /\ (now2 = now1 -> snd twice = snd once)
      /\ (forall data, payload (fst (fst twice)) = Some data ->
                       inserted data = 0%nat))
  /\ (forall docs, reachable docs -> NoDup (map index_key docs)).
Proof.
  split; [|exact reachable_unique].
  intros userId contacts phone now1 now2 users docs once twice.
  assert (Hcore :
    map unstamped (snd twice) = map unstamped (snd once)
    /\ (now2 = now1 -> snd twice = snd once)).
  { subst once twice.
    destruct (syncContacts_state userId contacts phone now1 users docs)
      as [Hu1 Hd1].
    rewrite (proj2 (syncContacts_state userId contacts phone now2 _ _)).
    rewrite Hu1.
    destruct contacts as [cs|]; [|tauto].
    destruct (List.length cs =? 0)%nat; [tauto|].
    destruct (Users.findById userId users) as [user|] eqn:Hfind;
      [|rewrite Hfind; tauto].
    rewrite findById_after_update, Hfind. simpl option_map. cbv iota.
    change (with_own_number (Users.set_contactPermission true user) phone cs)
      with (with_own_number user phone cs).
    rewrite Hd1. split.
    - rewrite !unstamped_updateMany, !unstamped_bulkOps.
      apply updateMany_idempotent.
    - intros ->. apply updateMany_idempotent. }
  destruct Hcore as [Hrows Hsame]. split; [exact Hrows|].
  split; [|split; [|split; [exact Hsame|]]].
  - rewrite <- (unstamped_keys (snd twice)), Hrows. apply unstamped_keys.
  - rewrite <- (length_map unstamped (snd twice)), Hrows. apply length_map.
  - clear Hrows Hsame. subst twice once.
    destruct (syncContacts_state userId contacts phone now1 users docs)
      as [Hu1 Hd1].
    rewrite Hu1, Hd1. clear Hu1 Hd1. unfold syncContacts.
    destruct contacts as [cs|]; [|discriminate].
    destruct (List.length cs =? 0)%nat; [discriminate|].
    destruct (Users.findById userId users) as [user|] eqn:Hfind;
      [|rewrite Hfind; discriminate].
    rewrite findById_after_update, Hfind. simpl option_map. cbv iota.
    change (with_own_number (Users.set_contactPermission true user) phone cs)
      with (with_own_number user phone cs).
    unfold bulkWrite.
    pose proof (bulkWrite_from_upserts_nothing (mkBulkWriteResult 0 0 0)
                  (map (bulkOp userId now2) (with_own_number user phone cs))
                  (updateMany
                     (map (bulkOp userId now1) (with_own_number user phone cs))
                     docs)
                  (bulkOps_present userId now1 now2 _ docs)) as Hnone.
    destruct (bulkWrite_from _ _ _) as [result docs2].
    intros data [= <-]. exact Hnone.
Qed.

End ContactSync.

Lemma syncContacts_idempotent_and_unique_witness :
  let once := Contacts.syncContacts 1%N (Some [Fixtures.bob; Fixtures.robert])
                (Some Fixtures.phone) 1000 [Fixtures.alice] [] in
  let twice := Contacts.syncContacts 1%N (Some [Fixtures.bob; Fixtures.robert])
                 (Some Fixtures.phone) 2000 (snd (fst once)) (snd once) in
  Contacts.reachable (snd once)
  /\ NoDup (map Contacts.index_key (snd once))
  /\ map c_name (snd once) = ["Robert"; "Alice"]
  /\ map Contacts.unstamped (snd twice) = map Contacts.unstamped (snd once).
Proof.
  intros once twice.
  assert (R : Contacts.reachable (snd once))
    by (apply Contacts.reach_sync, Contacts.reach_empty).
  split; [exact R|]. split; [|split; [reflexivity|]].
  - exact (proj2 syncContacts_idempotent_and_unique (snd once) R).
  - exact (proj1 (proj1 syncContacts_idempotent_and_unique 1%N
                    (Some [Fixtures.bob; Fixtures.robert])
                    (Some Fixtures.phone) 1000 2000 [Fixtures.alice] [])).
Defined.

(** ** SMS batch sync: counters and duplicate suppression *)

Section SmsBatch.

Import SmsSync.

Variable err_message : Thrown -> string.
Variable userId : ObjectId.

Lemma find_snoc (A : Type) (f : A -> bool) (l : list A) (d : A) :
  find f (l ++ [d])
  = match find f l with
    | Some r => Some r
    | None => if f d then Some d else None
    end.
Proof.
  induction l as [|a l IH]; simpl; [reflexivity|].
  destruct (f a); [reflexivity|exact IH].
Qed.

Lemma find_none_existsb (A : Type) (f : A -> bool) (l : list A) :
  find f l = None -> existsb f l = false.
Proof.
  induction l as [|a l IH]; simpl; [reflexivity|].
  destruct (f a); [discriminate|exact IH].
Qed.

Lemma find_none_filter (A : Type) (f : A -> bool) (l : list A) :
  find f l = None -> filter f l = [].
Proof.
  induction l as [|a l IH]; simpl; [reflexivity|].
  destruct (f a); [discriminate|exact IH].
Qed.

(** A document that passes validation carries the user and the
    identifier of its item. *)
Lemma validate_key sms d :
  validate userId sms = Some d ->
  sms_id sms = Some (s_smsId d) /\ s_userId d = userId.
Proof.
  unfold validate.
  destruct (sms_id sms) as [i|]; [|discriminate].
  destruct (sms_address sms) as [a|]; [|discriminate].
  destruct (sms_body sms) as [b|]; [|discriminate].
  destruct (sms_date sms) as [t|]; [|discriminate].
  destruct (parse_type (sms_type sms)) as [ty|]; [|discriminate].
  destruct (_ && _); [|discriminate].
  intros [= <-]. split; reflexivity.
Qed.

(** After the existence check the unique index never refuses the insert:
    the loop body ends in one of the three ways of [Step]. *)
Lemma process_step b sms :
  Step err_message userId b sms (process_item err_message userId b sms).
Proof.
  unfold process_item.
  destruct (findOne userId (sms_id sms) (docs b)) as [existing|] eqn:F.
  - eapply step_skipped, F.
  - unfold create.
    destruct (validate userId sms) as [d|] eqn:V.
    + replace (existsb (has_key userId (s_smsId d)) (docs b)) with false.
      * apply step_synced; assumption.
      * symmetry. apply find_none_existsb.
        destruct (validate_key _ _ V) as [Hid _].
        rewrite Hid in F. exact F.
    + apply step_failed; assumption.
Qed.

Lemma run_cons sms items b :
  run err_message userId (sms :: items) b
  = run err_message userId items (process_item err_message userId b sms).
Proof. reflexivity. Qed.

Lemma run_app items1 items2 b :
  run err_message userId (items1 ++ items2) b
  = run err_message userId items2 (run err_message userId items1 b).
Proof. apply fold_left_app. Qed.

(** On elements whose keys can be read nothing leaves the loop. *)
Lemma loop_items items b :
  loop err_message userId (map JsonItem items) b
  = (run err_message userId items b, None).
Proof.
  revert b. induction items as [|sms items IH]; intro b; [reflexivity|].
  simpl. apply IH.
Qed.

(** A [null] element ends the loop where it stands. *)
Lemma loop_null items rest b :
  loop err_message userId (map JsonItem items ++ JsonNull :: rest) b
  = (run err_message userId items b, Some NullItem).
Proof.
  revert b. induction items as [|sms items IH]; intro b; [reflexivity|].
  simpl. apply IH.
Qed.

(** *** Accounting *)

(** Every item lands in exactly one of the three counters, and the
    collection grows by the items counted as synced. *)
Lemma run_accounting items b :
  let b' := run err_message userId items b in
  (syncedCount b' + skippedCount b' + List.length (errors b')
   = syncedCount b + skippedCount b + List.length (errors b)
     + List.length items)%nat
  /\ (List.length (docs b') + syncedCount b
      = List.length (docs b) + syncedCount b')%nat.
Proof.
  revert b. induction items as [|sms items IH]; intro b; cbv zeta.
  - simpl. split; lia.
  - rewrite run_cons.
    specialize (IH (process_item err_message userId b sms)). cbv zeta in IH.
    destruct (process_step b sms); simpl in IH |- *;
      rewrite ?length_app in IH; simpl in IH; split; lia.
Qed.

(** *** Items already stored, and repeats within the batch *)

Lemma stored_snoc ds d z :
  s_userId d = userId ->
  is_stored userId (ds ++ [d]) z
  = is_stored userId ds z
    || match sms_id z with
       | Some i => (s_smsId d =? i)%string
       | None => false
       end.
Proof.
  intro Hu. unfold is_stored, findOne.
  destruct (sms_id z) as [i|]; [|reflexivity].
  rewrite find_snoc. destruct (find _ ds); [reflexivity|].
  unfold has_key. rewrite Hu, N.eqb_refl. simpl.
  destruct (s_smsId d =? i)%string; reflexivity.
Qed.

Lemma stored_same_id ds x z :
  same_id x z = true -> is_stored userId ds z = is_stored userId ds x.
Proof.
  unfold same_id, is_stored, findOne.
  destruct (sms_id x) as [i|], (sms_id z) as [j|]; try discriminate.
  intro E. apply String.eqb_eq in E. subst j. reflexivity.
Qed.

Lemma is_stored_findOne ds sms :
  is_stored userId ds sms = true <->
  exists existing, findOne userId (sms_id sms) ds = Some existing.
Proof.
  unfold is_stored. destruct (findOne _ _ ds) as [e|]; split.
  - eauto.
  - reflexivity.
  - discriminate.
  - intros [e [=]].
Qed.

(** An item is found stored when its turn comes exactly if it repeats a
    document stored before the call or follows a valid item of the batch
    with its identifier; so the skipped items are the duplicates and the
    repeats. *)
Lemma run_skipped docs0 items earlier b :
  (forall z, is_stored userId (docs b) z
             = is_stored userId docs0 z || follows_valid userId earlier z) ->
  skippedCount (run err_message userId items b)
  = (skippedCount b + duplicates userId docs0 items
     + repeats_after userId docs0 earlier items)%nat.
Proof.
  revert earlier b. induction items as [|x items IH]; intros earlier b Inv.
  - simpl. unfold duplicates. simpl. lia.
  - rewrite run_cons. unfold duplicates in *. simpl filter.
    simpl repeats_after. pose proof (Inv x) as Hx.
    assert (Hnext : forall b',
      (forall z, is_stored userId (docs b') z
                 = is_stored userId (docs b) z
                   || (same_id x z && passes userId x)) ->
      forall z, is_stored userId (docs b') z
                = is_stored userId docs0 z
                  || follows_valid userId (earlier ++ [x]) z).
    { intros b' Hb' z. rewrite Hb', Inv. unfold follows_valid.
      rewrite existsb_app. simpl. rewrite orb_false_r, orb_assoc.
      reflexivity. }
    destruct (process_step b x) as [existing F|d F V|F V].
    + assert (Sx : is_stored userId (docs b) x = true)
        by (apply is_stored_findOne; eauto).
      rewrite (IH (earlier ++ [x])).
      * rewrite Sx in Hx. simpl skippedCount.
        destruct (is_stored userId docs0 x); simpl in Hx |- *;
          [lia|rewrite <- Hx; simpl; lia].
      * apply Hnext. intro z. simpl docs.
        destruct (same_id x z) eqn:E; simpl;
          [|rewrite orb_false_r; reflexivity].
        rewrite (stored_same_id _ _ _ E), Sx. reflexivity.
    + assert (Sx : is_stored userId (docs b) x = false)
        by (unfold is_stored; rewrite F; reflexivity).
      rewrite Sx in Hx. symmetry in Hx. apply orb_false_iff in Hx.
      destruct Hx as [H0 Hf]. rewrite H0, Hf.
      rewrite (IH (earlier ++ [x])); [simpl; lia|].
      apply Hnext. intro z. simpl docs.
      destruct (validate_key _ _ V) as [Hid Hu].
      rewrite (stored_snoc _ _ _ Hu). unfold passes. rewrite V.
      rewrite andb_true_r. unfold same_id. rewrite Hid. reflexivity.
    + assert (Sx : is_stored userId (docs b) x = false)
        by (unfold is_stored; rewrite F; reflexivity).
      rewrite Sx in Hx. symmetry in Hx. apply orb_false_iff in Hx.
      destruct Hx as [H0 Hf]. rewrite H0, Hf.
      rewrite (IH (earlier ++ [x])); [simpl; lia|].
      apply Hnext. intro z. simpl docs. unfold passes. rewrite V.
      rewrite andb_false_r, orb_false_r. reflexivity.
Qed.

(** *** One identifier *)

(** Items with other identifiers store nothing under identifier [i]. *)
Lemma run_leaves_absent i items b :
  (forall y, In y items -> sms_id y <> Some i) ->
  find (has_key userId i) (docs b) = None ->
  find (has_key userId i) (docs (run err_message userId items b)) = None.
Proof.
  revert b. induction items as [|y items IH]; intros b Hother Habs;
    [exact Habs|].
  rewrite run_cons. apply IH; [intros z Hz; apply Hother; right; exact Hz|].
  destruct (process_step b y) as [existing F|d F V|F V]; simpl;
    try exact Habs.
  rewrite find_snoc, Habs.
  destruct (validate_key _ _ V) as [Hid _].
  unfold has_key. destruct (String.eqb_spec (s_smsId d) i) as [E|_];
    [|rewrite andb_false_r; reflexivity].
  exfalso. apply (Hother y (or_introl eq_refl)). congruence.
Qed.

(** Once a document is stored under identifier [i], the loop neither adds
    another nor loses it. *)
Lemma run_keeps_stored i items b :
  find (has_key userId i) (docs b) <> None ->
  find (has_key userId i) (docs (run err_message userId items b)) <> None
  /\ filter (has_key userId i) (docs (run err_message userId items b))
     = filter (has_key userId i) (docs b).
Proof.
  revert b. induction items as [|y items IH]; intros b Hin;
    [split; [exact Hin|reflexivity]|].
  rewrite run_cons.
  destruct (process_step b y) as [existing F|d F V|F V];
    [exact (IH (mkBatch _ _ _ (docs b)) Hin)
    |
    |exact (IH (mkBatch _ _ _ (docs b)) Hin)].
  destruct (validate_key _ _ V) as [Hid _].
  assert (Hd : has_key userId i d = false).
  { unfold has_key. destruct (String.eqb_spec (s_smsId d) i) as [E|_];
      [|rewrite andb_false_r; reflexivity].
    exfalso. apply Hin. rewrite Hid, E in F. exact F. }
  destruct (IH (mkBatch (S (syncedCount b)) (skippedCount b) (errors b)
                  (docs b ++ [d]))) as [Hin' Hf'].
  - simpl. rewrite find_snoc.
    destruct (find (has_key userId i) (docs b)); [discriminate|contradiction].
  - split; [exact Hin'|]. rewrite Hf'. simpl.
    rewrite filter_app. simpl. rewrite Hd. apply app_nil_r.
Qed.

End SmsBatch.

Section SmsBatchClaims.

Import SmsSync.

Variable err_message : Thrown -> string.
Variable userId : ObjectId.

(** A [null] element is not caught in the loop: the handler answers 500
    with the elements before it processed and those behind it dropped. *)
Lemma syncSmsBatch_null_element items rest docs0 :
  syncSmsBatch err_message (Some userId)
    (Some (map JsonItem items ++ JsonNull :: rest)) docs0
  = (mkResponse 500 false "Failed to sync SMS batch"
       (Failure (err_message NullItem)),
     docs (run err_message userId items (mkBatch 0 0 [] docs0))).
Proof.
  unfold syncSmsBatch. rewrite loop_null. reflexivity.
Qed.

(** C4, as the code has it.  A batch of N items, none of them [null], is
    answered 200 with counters that add up to N; the collection grows by
    exactly the number counted as synced; the skipped items are the M that
    repeat a stored document and the R that repeat none but follow, in the
    batch, a valid item with their identifier, so that skipped = M and
    synced = N - M - errors when the batch has no such repeat; and an item
    whose insert fails validation is recorded in the error list and the
    rest of the batch is processed. *)
Theorem syncSmsBatch_accounting items docs0 :
  let answer := syncSmsBatch err_message (Some userId)
                  (Some (map JsonItem items)) docs0 in
  let start := mkBatch 0 0 [] docs0 in
  exists data,
    fst answer = mkResponse 200 true "SMS batch sync completed" (Counters data) /\
    (synced data + skipped data + errorCount data = List.length items)%nat /\
    List.length (snd answer) = (List.length docs0 + synced data)%nat /\
    skipped data
    = (duplicates userId docs0 items + repeats userId docs0 items)%nat /\
    (repeats userId docs0 items = 0%nat ->
       skipped data = duplicates userId docs0 items /\
       synced data
       = (List.length items - duplicates userId docs0 items
          - errorCount data)%nat) /\
    (forall pre sms post,
        items = pre ++ sms :: post ->
        let before := fst (loop err_message userId (map JsonItem pre) start) in
        findOne userId (sms_id sms) (docs before) = None ->
        validate userId sms = None ->
        loop err_message userId (map JsonItem items) start
        = loop err_message userId (map JsonItem post)
            (mkBatch (syncedCount before) (skippedCount before)
               (errors before
                ++ [(sms_id sms, err_message (ValidationFailed userId sms))])
               (docs before))).
Proof.
  intros answer start. subst answer. unfold syncSmsBatch. fold start.
  rewrite loop_items.
  eexists. split; [reflexivity|]. cbn [fst snd synced skipped errorCount].
  destruct (run_accounting err_message userId items start) as [Hsum Hrows].
  simpl in Hsum, Hrows.
  assert (Hsk : skippedCount (run err_message userId items start)
                = (duplicates userId docs0 items
                   + repeats userId docs0 items)%nat).
  { apply (run_skipped err_message userId docs0 items [] start).
    intro z. rewrite orb_false_r. reflexivity. }
  split; [lia|]. split; [lia|]. split; [exact Hsk|]. split.
  - intro R0. rewrite R0 in Hsk. split; lia.
  - intros pre sms post -> F V. rewrite !loop_items in *. cbn [fst] in F |- *.
    f_equal. rewrite run_app, run_cons. f_equal.
    destruct (process_step err_message userId
                (run err_message userId pre start) sms)
      as [existing F'|d F' V'|F' V']; [congruence|congruence|reflexivity].
Qed.

(** C10, as the code has it.  In a batch without [null] elements, let an
    identifier [i] that is not stored for the user occur several times,
    and let its first occurrence pass validation.  Then the loop body
    inserts that first occurrence and counts it in synced; for each later
    occurrence, in the state the loop has reached by then, it counts the
    item in skipped and stores nothing; and the collection ends with
    exactly one document under [i]. *)
Theorem syncSmsBatch_repeated_id docs0 pre sms post i d :
  sms_id sms = Some i ->
  findOne userId (Some i) docs0 = None ->
  (forall y, In y pre -> sms_id y <> Some i) ->
  validate userId sms = Some d ->
  let start := mkBatch 0 0 [] docs0 in
  let before := fst (loop err_message userId (map JsonItem pre) start) in
  process err_message userId before (JsonItem sms)
  = inl (mkBatch (S (syncedCount before)) (skippedCount before)
           (errors before) (docs before ++ [d]))
  /\ (forall mid y rest,
        post = mid ++ y :: rest ->
        sms_id y = Some i ->
        let b := fst (loop err_message userId
                        (map JsonItem (pre ++ sms :: mid)) start) in
        process err_message userId b (JsonItem y)
        = inl (mkBatch (syncedCount b) (S (skippedCount b)) (errors b)
                 (docs b)))
  /\ List.length
       (filter (has_key userId i)
          (snd (syncSmsBatch err_message (Some userId)
                  (Some (map JsonItem (pre ++ sms :: post))) docs0)))
     = 1%nat.
Proof.
  intros Hid Hnew Hpre V start before.
  subst before. rewrite loop_items. cbn [fst].
  set (before := run err_message userId pre start).
  assert (Habs : find (has_key userId i) (docs before) = None)
    by (apply run_leaves_absent; assumption).
  assert (Hfirst : process_item err_message userId before sms
                   = mkBatch (S (syncedCount before)) (skippedCount before)
                       (errors before) (docs before ++ [d])).
  { destruct (process_step err_message userId before sms)
      as [existing F|d' F V'|F V'].
    - rewrite Hid in F. simpl in F. congruence.
    - congruence.
    - congruence. }
  assert (Hkey : has_key userId i d = true).
  { destruct (validate_key _ _ _ V) as [Hd1 Hd2]. unfold has_key.
    rewrite Hd2, N.eqb_refl. rewrite Hid in Hd1. injection Hd1 as ->.
    rewrite String.eqb_refl. reflexivity. }
  assert (Hstored : find (has_key userId i) (docs before ++ [d]) <> None).
  { rewrite find_snoc, Habs, Hkey. discriminate. }
  split; [simpl; rewrite Hfirst; reflexivity|]. split.
  - intros mid y rest -> Hy. cbv zeta. rewrite loop_items. cbn [fst].
    set (b := run err_message userId (pre ++ sms :: mid) start).
    assert (Hb : find (has_key userId i) (docs b) <> None).
    { subst b. rewrite run_app, run_cons. fold before. rewrite Hfirst.
      apply (run_keeps_stored err_message userId i mid
               (mkBatch _ _ _ (docs before ++ [d])) Hstored). }
    simpl. f_equal.
    destruct (process_step err_message userId b y)
      as [existing F|d' F V'|F V'];
      [reflexivity| |]; rewrite Hy in F; simpl in F; contradiction.
  - unfold syncSmsBatch. fold start. rewrite loop_items. cbn [snd].
    rewrite run_app, run_cons. fold before. rewrite Hfirst.
    rewrite (proj2 (run_keeps_stored err_message userId i post
                      (mkBatch _ _ _ (docs before ++ [d])) Hstored)).
    simpl.
    rewrite filter_app, (find_none_filter _ _ _ Habs). simpl.
    rewrite Hkey. reflexivity.
Qed.

End SmsBatchClaims.

(** *** Examples for the SMS properties *)

Lemma syncSmsBatch_accounting_witness :
  let items := [Fixtures.hello; Fixtures.broken; Fixtures.bye] in
  let docs0 := [Fixtures.hello_doc] in
  let answer := SmsSync.syncSmsBatch Fixtures.message (Some 1%N)
                  (Some (map SmsSync.JsonItem items)) docs0 in
  SmsSync.repeats 1%N docs0 items = 0%nat
  /\ SmsSync.duplicates 1%N docs0 items = 1%nat
  /\ List.length (snd answer) = 2%nat
  /\ exists data,
       payload (fst answer) = SmsSync.Counters data /\
       SmsSync.skipped data = 1%nat /\
       SmsSync.synced data = (3 - 1 - SmsSync.errorCount data)%nat.
Proof.
  intros items docs0 answer.
  split; [reflexivity|]. split; [reflexivity|]. split; [reflexivity|].
  destruct (syncSmsBatch_accounting Fixtures.message 1%N items docs0)
    as (data & Hres & _ & _ & _ & Hexact & _).
  destruct (Hexact eq_refl) as [Hskipped Hsynced].
  exists data. split; [|split; [exact Hskipped|exact Hsynced]].
  exact (f_equal payload Hres).
Defined.

(** C4, as stated, fails for a batch that repeats an identifier: of two
    copies of a new message none repeats a stored document (M = 0), yet the
    second copy is skipped and only one document is stored. *)
Lemma syncSmsBatch_repeat_in_batch_is_skipped :
  let items := [Fixtures.hello; Fixtures.hello] in
  let answer := SmsSync.syncSmsBatch Fixtures.message (Some 1%N)
                  (Some (map SmsSync.JsonItem items)) [] in
  SmsSync.duplicates 1%N [] items = 0%nat
  /\ fst answer
     = mkResponse 200 true "SMS batch sync completed"
         (SmsSync.Counters
            {| SmsSync.synced := 1; SmsSync.skipped := 1;
               SmsSync.errorCount := 0; SmsSync.errorDetails := [] |})
  /\ snd answer = [Fixtures.hello_doc]
  /\ ~ (exists data,
          payload (fst answer) = SmsSync.Counters data /\
          SmsSync.skipped data = SmsSync.duplicates 1%N [] items /\
          SmsSync.synced data
          = (List.length items - SmsSync.duplicates 1%N [] items
             - SmsSync.errorCount data)%nat).
Proof.
  split; [reflexivity|]. split; [reflexivity|]. split; [reflexivity|].
  intros (data & Hdata & Hskipped & _).
  simpl in Hdata. injection Hdata as <-. discriminate.
Qed.

Lemma syncSmsBatch_repeated_id_witness :
  let items := [Fixtures.bye; Fixtures.hello; Fixtures.hello_without_body;
                Fixtures.hello] in
  let answer := SmsSync.syncSmsBatch Fixtures.message (Some 1%N)
                  (Some (map SmsSync.JsonItem items)) [] in
  payload (fst answer)
  = SmsSync.Counters
      {| SmsSync.synced := 2; SmsSync.skipped := 2;
         SmsSync.errorCount := 0; SmsSync.errorDetails := [] |}
  /\ List.length (filter (SmsSync.has_key 1%N "m1") (snd answer)) = 1%nat.
Proof.
  split; [reflexivity|].
  refine (proj2 (proj2 (syncSmsBatch_repeated_id Fixtures.message 1%N []
                          [Fixtures.bye] Fixtures.hello
                          [Fixtures.hello_without_body; Fixtures.hello]
                          "m1" Fixtures.hello_doc eq_refl eq_refl _ eq_refl))).
  intros y [<-|[]]. discriminate.
Defined.

(** C10, as stated, fails when the first occurrence does not pass
    validation: it is counted as an error and stores nothing, and the later
    occurrence is then inserted and counted in synced, not in skipped. *)
Lemma syncSmsBatch_first_occurrence_may_fail :
  let items := [Fixtures.hello_without_body; Fixtures.hello] in
  let start := SmsSync.mkBatch 0 0 [] [] in
  let thrown := SmsSync.ValidationFailed 1%N Fixtures.hello_without_body in
  let answer := SmsSync.syncSmsBatch Fixtures.message (Some 1%N)
                  (Some (map SmsSync.JsonItem items)) [] in
  sms_id Fixtures.hello_without_body = sms_id Fixtures.hello
  /\ SmsSync.process Fixtures.message 1%N start
       (SmsSync.JsonItem Fixtures.hello_without_body)
     = inl (SmsSync.mkBatch 0 0 [(Some "m1", Fixtures.message thrown)] [])
  /\ fst answer
     = mkResponse 200 true "SMS batch sync completed"
         (SmsSync.Counters
            {| SmsSync.synced := 1; SmsSync.skipped := 0;
               SmsSync.errorCount := 1;
               SmsSync.errorDetails :=
                 [(Some "m1", Fixtures.message thrown)] |})
  /\ snd answer = [Fixtures.hello_doc].
Proof.
  repeat split.
Qed.

(** A [null] between two copies of a message: the first copy is stored,
    the answer is 500 and the second copy is never looked at. *)
Example syncSmsBatch_null_between_copies :
  SmsSync.syncSmsBatch Fixtures.message (Some 1%N)
    (Some [SmsSync.JsonItem Fixtures.hello; SmsSync.JsonNull;
           SmsSync.JsonItem Fixtures.hello]) []
  = (mkResponse 500 false "Failed to sync SMS batch"
       (SmsSync.Failure (Fixtures.message SmsSync.NullItem)),
     [Fixtures.hello_doc]).
Proof. reflexivity. Qed.
